(** * ViGAT training script ([train.py]): early stopping and the epoch loop

    The first part embeds the code:
    - the class [EarlyStopper] (lines 34-53), over IEEE binary64 scores
      (Rocq's primitive [float], the arithmetic of Python's [float]);
    - the body of [main] from [start_epoch = 0] on (lines 113-162), as a
      state-passing loop that logs the calls it makes; [train] and [validate]
      (lines 55-87) only call into torch and are taken by their effect;
    - the checkpoint files behind [torch.save] and [torch.load].

    The second part proves what the stopper and the loop do.  The facts on
    binary64 comparison and rounding it needs are derived from [SpecFloat]. *)

From Stdlib Require Import ZArith List Bool Lia Floats String Ascii.
Import ListNotations.

(** ** Python comparison operators on floats *)

Module PyFloat.

(** [a >= b] and [a > b]; both are false as soon as one side is NaN. *)
Definition geb (a b : float) : bool := PrimFloat.leb b a.
Definition gtb (a b : float) : bool := PrimFloat.ltb b a.

(** [-float('inf')] *)
Definition neg_inf : float := neg_infinity.

End PyFloat.

(** ** class EarlyStopper *)

Module EarlyStopper.

(** The attributes set by [__init__]. *)
Record t : Type := mk {
  patience : Z;
  min_delta : float;
  counter : Z;
  max_validation_mAP : float;
  threshold : float
}.

(** [__init__(self, patience, min_delta, threshold)] *)
Definition init (patience : Z) (min_delta threshold : float) : t :=
  {| patience := patience;
     min_delta := min_delta;
     counter := 0;
     max_validation_mAP := PyFloat.neg_inf;
     threshold := threshold |}.

Definition set_best (self : t) (v : float) : t :=
  {| patience := patience self;
     min_delta := min_delta self;
     counter := 0;
     max_validation_mAP := v;
     threshold := threshold self |}.

Definition incr_counter (self : t) : t :=
  {| patience := patience self;
     min_delta := min_delta self;
     counter := counter self + 1;
     max_validation_mAP := max_validation_mAP self;
     threshold := threshold self |}.

(** [early_stop(self, validation_mAP)]: the returned pair is
    [(is_early_stopping, is_save_ckpt)], next to the updated object. *)
Definition early_stop (self : t) (validation_mAP : float) : (bool * bool) * t :=
  if PyFloat.geb validation_mAP (threshold self) then
    ((true, true), self)
  else if PyFloat.gtb validation_mAP (max_validation_mAP self) then
    ((false, true), set_best self validation_mAP)
  else if PrimFloat.ltb validation_mAP
                        (PrimFloat.sub (max_validation_mAP self) (min_delta self)) then
    let self' := incr_counter self in
    if (counter self' >? patience self')%Z then ((true, false), self')
    else ((false, false), self')
  else
    ((false, false), self).

(** Feeding a sequence of scores to one stopper: the decisions in call
    order and the object after the last call. *)
Fixpoint run (self : t) (scores : list float) : list (bool * bool) * t :=
  match scores with
  | [] => ([], self)
  | s :: rest =>
      let '(d, self') := early_stop self s in
      let '(ds, self'') := run self' rest in
      (d :: ds, self'')
  end.

(** The same run, keeping the counter next to every decision. *)
Fixpoint run_counters (self : t) (scores : list float) : list (bool * bool * Z) :=
  match scores with
  | [] => []
  | s :: rest =>
      let '(d, self') := early_stop self s in
      (d, counter self') :: run_counters self' rest
  end.

End EarlyStopper.

(** ** Notions the properties of the stopper are stated with *)

Module StopperSpec.

Import EarlyStopper.

(** The stopper of the concrete scenario: [patience=2, min_delta=1.0,
    threshold=95]. *)
Definition scenario : t := init 2 1.0 95.

Definition scenario_scores : list float := [10; 12; 11; 9; 8]%float.

(** A qualifying regression for a stopper: a score below the threshold and
    below [best - min_delta]. *)
Definition regression (self : t) (s : float) : Prop :=
  (s <? max_validation_mAP self - min_delta self)%float = true
  /\ (s <? threshold self)%float = true.

(** The running maximum of a sequence of scores, the way the spec words it:
    start from the initial value and keep the larger one at every score. *)
Definition running_max (start : float) (scores : list float) : float :=
  fold_left (fun best s => if (best <? s)%float then s else best) scores start.

(** The scores that are strictly below the threshold. *)
Definition below (threshold : float) (scores : list float) : list float :=
  filter (fun s => (s <? threshold)%float) scores.

(** The scores that do not take the threshold exit of [early_stop]. *)
Definition not_reached (threshold : float) (scores : list float) : list float :=
  filter (fun s => negb (PyFloat.geb s threshold)) scores.

End StopperSpec.



(** ** Checkpoint files

    [torch.save(obj, path)] serializes into the file it opens at [path]
    itself: the target is truncated when it is opened and holds a complete
    checkpoint only once the whole serialization has been written.  A file
    is therefore either an intact checkpoint or the torn remains of a save
    that did not finish; [torch.load] reads intact files only. *)

Module Files.

Section Disk.

Variable Checkpoint : Type.

Inductive file : Type :=
| Intact (ck : Checkpoint)
| Torn.

Definition Disk : Type := string -> option file.

Definition write (disk : Disk) (path : string) (f : file) : Disk :=
  fun p => if String.eqb p path then Some f else disk p.

(** Opening the target for writing: what was there is gone. *)
Definition open_wb (disk : Disk) (path : string) : Disk := write disk path Torn.

(** The serialization has been written out and the file closed. *)
Definition close_complete (disk : Disk) (path : string) (ck : Checkpoint) : Disk :=
  write disk path (Intact ck).

(** [torch.save(ck, path)] that runs to its end. *)
Definition torch_save (disk : Disk) (path : string) (ck : Checkpoint) : Disk :=
  close_complete (open_wb disk path) path ck.

(** [torch.save(ck, path)] that fails or is killed after the target was
    opened and before the serialization is complete. *)
Definition torch_save_interrupted (disk : Disk) (path : string) (ck : Checkpoint) : Disk :=
  open_wb disk path.

(** [torch.load(path)]; [None] stands for the exception it raises. *)
Definition torch_load (disk : Disk) (path : string) : option Checkpoint :=
  match disk path with
  | Some (Intact ck) => Some ck
  | Some Torn => None
  | None => None
  end.

End Disk.

Arguments Intact {Checkpoint} ck.
Arguments Torn {Checkpoint}.
Arguments write {Checkpoint} disk path f _.
Arguments open_wb {Checkpoint} disk path _.
Arguments close_complete {Checkpoint} disk path ck _.
Arguments torch_save {Checkpoint} disk path ck _.
Arguments torch_save_interrupted {Checkpoint} disk path ck _.
Arguments torch_load {Checkpoint} disk path.

(** [os.path.join(a, b)] for a relative [b] (POSIX). *)
Fixpoint ends_with_slash (a : string) : bool :=
  match a with
  | EmptyString => false
  | String c EmptyString => Ascii.eqb c "/"%char
  | String _ rest => ends_with_slash rest
  end.

Definition path_join (a b : string) : string :=
  match a with
  | EmptyString => b
  | _ => if ends_with_slash a then a ++ b else a ++ "/" ++ b
  end.

End Files.

(** ** The command line *)

Module Args.

(** The parsed arguments [main] reads from [start_epoch = 0] on. *)
Record t : Type := mk {
  num_epochs : Z;
  resume : option string;
  save_folder : string;
  dataset : string;
  patience : Z;
  min_delta : float;
  threshold : float;
  verbose : bool
}.

(** Truth value of [args.resume]: [None] and the empty string are false. *)
Definition resume_path (a : t) : option string :=
  match resume a with
  | None => None
  | Some EmptyString => None
  | Some p => Some p
  end.

Definition last_path (a : t) : string :=
  Files.path_join (save_folder a) ("last-vigat-" ++ dataset a ++ ".pt").

Definition best_path (a : t) : string :=
  Files.path_join (save_folder a) ("best-vigat-" ++ dataset a ++ ".pt").

End Args.

(** ** [main]: resume, then the epoch loop *)

Module Main.

Section Collaborators.

(** What [state_dict()] returns for the model, the optimizer and the
    scheduler; the loop only moves these around. *)
Variables Model Opt Sched : Type.

Record Trainer : Type := mkTrainer {
  model : Model;
  opt : Opt;
  sched : Sched
}.

(** The dictionary [model_config] and the content of a checkpoint file. *)
Record Checkpoint : Type := mkCheckpoint {
  epoch : Z;
  loss : float;
  model_state_dict : Model;
  opt_state_dict : Opt;
  sched_state_dict : Sched
}.

(** [train(model, train_loader, crit, opt, sched, device)]: the effect of one
    pass on the three objects and the mean loss it returns.  The pass itself
    never changes [model.training]; its computation may depend on it. *)
Variable train : bool -> Trainer -> Trainer * float.

(** [validate(model, val_dataset, val_loader, device)], after its
    [model.eval()]: the score [map_macro]. *)
Variable validate : Model -> float.

Inductive message : Type :=
| Resuming (start_epoch : Z)
| StopAt (epoch_cnt : Z)
| EpochLine (epoch_cnt : Z) (train_loss val_map : float).

(** What a run does, in order. *)
Inductive event : Type :=
| Train (epoch : Z) (training : bool)
| Validate (epoch : Z)
| EarlyStop (val_map : float) (is_early_stopping is_save_ckpt : bool)
| Save (path : string) (ck : Checkpoint)
| Print (msg : message).

Record State : Type := mkState {
  trainer : Trainer;
  training : bool;
  early_stopper : EarlyStopper.t;
  disk : Files.Disk Checkpoint;
  trace : list event
}.

(** State passing for the body of the loop. *)
Definition Run (A : Type) : Type := State -> A * State.

Definition ret {A : Type} (a : A) : Run A := fun st => (a, st).

Definition bind {A B : Type} (c : Run A) (k : A -> Run B) : Run B :=
  fun st => let '(a, st') := c st in k a st'.

Local Notation "x <- c ;; k" := (bind c (fun x => k))
  (at level 61, c at next level, right associativity).
Local Notation "c ;; k" := (bind c (fun _ => k))
  (at level 61, right associativity).

Definition emit (e : event) : Run unit :=
  fun st => (tt, mkState (trainer st) (training st) (early_stopper st) (disk st)
                          (trace st ++ [e])).

(** [model.train()] and [model.eval()] *)
Definition set_training (b : bool) : Run unit :=
  fun st => (tt, mkState (trainer st) b (early_stopper st) (disk st) (trace st)).

Definition call_train (epoch : Z) : Run float :=
  fun st =>
    let '(tr, train_loss) := train (training st) (trainer st) in
    (train_loss,
     mkState tr (training st) (early_stopper st) (disk st)
             (trace st ++ [Train epoch (training st)])).

Definition call_validate (epoch : Z) : Run float :=
  emit (Validate epoch) ;;
  set_training false ;;
  fun st => (validate (model (trainer st)), st).

Definition call_early_stop (val_map : float) : Run (bool * bool) :=
  fun st =>
    let '((is_early_stopping, is_save_ckpt), es) :=
      EarlyStopper.early_stop (early_stopper st) val_map in
    ((is_early_stopping, is_save_ckpt),
     mkState (trainer st) (training st) es (disk st)
             (trace st ++ [EarlyStop val_map is_early_stopping is_save_ckpt])).

Definition model_config (epoch_cnt : Z) (train_loss : float) : Run Checkpoint :=
  fun st =>
    (mkCheckpoint epoch_cnt train_loss
                  (model (trainer st)) (opt (trainer st)) (sched (trainer st)),
     st).

Definition torch_save (ck : Checkpoint) (path : string) : Run unit :=
  fun st =>
    (tt, mkState (trainer st) (training st) (early_stopper st)
                 (Files.torch_save (disk st) path ck)
                 (trace st ++ [Save path ck])).

Definition print (m : message) : Run unit := emit (Print m).

Variable args : Args.t.

(** One pass through the body of [for epoch in range(start_epoch,
    args.num_epochs)]; the result tells whether the body ended in [break]. *)
Definition iteration (epoch : Z) : Run bool :=
  let epoch_cnt := (epoch + 1)%Z in
  train_loss <- call_train epoch ;;
  val_map <- call_validate epoch ;;
  decision <- call_early_stop val_map ;;
  let '(is_early_stopping, is_save_ckpt) := decision in
  config <- model_config epoch_cnt train_loss ;;
  torch_save config (Args.last_path args) ;;
  (if is_save_ckpt then torch_save config (Args.best_path args) else ret tt) ;;
  if is_early_stopping then
    print (StopAt epoch_cnt) ;; ret true
  else
    (if Args.verbose args then print (EpochLine epoch_cnt train_loss val_map)
     else ret tt) ;;
    ret false.

(** The loop over [range(epoch, epoch + fuel)]. *)
Fixpoint loop (fuel : nat) (epoch : Z) (st : State) : State :=
  match fuel with
  | O => st
  | S fuel' =>
      let '(broke, st') := iteration epoch st in
      if broke then st' else loop fuel' (epoch + 1)%Z st'
  end.

(** [len(range(start, stop))] *)
Definition range_len (start stop : Z) : nat := Z.to_nat (stop - start).

(** The state before the loop: the objects built on lines 113-117, replaced
    by the checkpoint's when [args.resume] is set, a fresh [EarlyStopper],
    and [model.train()]. *)
Definition startup (fresh : Trainer) (d : Files.Disk Checkpoint)
  : option (Z * State) :=
  let es := EarlyStopper.init (Args.patience args) (Args.min_delta args)
                              (Args.threshold args) in
  match Args.resume_path args with
  | None => Some (0%Z, mkState fresh true es d [])
  | Some path =>
      match Files.torch_load d path with
      | None => None
      | Some data =>
          let tr := mkTrainer (model_state_dict data) (opt_state_dict data)
                              (sched_state_dict data) in
          let start_epoch := epoch data in
          Some (start_epoch,
                mkState tr true es d
                        (if Args.verbose args then [Print (Resuming start_epoch)]
                         else []))
      end
  end.

(** [main()] from line 113 on; [None] when [torch.load] raises. *)
Definition main (fresh : Trainer) (d : Files.Disk Checkpoint) : option State :=
  match startup fresh d with
  | None => None
  | Some (start_epoch, st) =>
      Some (loop (range_len start_epoch (Args.num_epochs args)) start_epoch st)
  end.

(** The checkpoints written to a path, oldest first. *)
Fixpoint saved_at (path : string) (tr : list event) : list Checkpoint :=
  match tr with
  | [] => []
  | Save p ck :: rest =>
      if String.eqb p path then ck :: saved_at path rest else saved_at path rest
  | _ :: rest => saved_at path rest
  end.

(** The [model.training] flag seen by each training pass, in order. *)
Fixpoint train_modes (tr : list event) : list bool :=
  match tr with
  | [] => []
  | Train _ b :: rest => b :: train_modes rest
  | _ :: rest => train_modes rest
  end.

Definition is_pass (e : event) : bool :=
  match e with
  | Train _ _ => true
  | Validate _ => true
  | _ => false
  end.

Definition is_save (e : event) : bool :=
  match e with
  | Save _ _ => true
  | _ => false
  end.

Definition is_stop_message (e : event) : bool :=
  match e with
  | Print (StopAt _) => true
  | _ => false
  end.

(** *** What one iteration computes from the state it starts in

    The values the body of the loop passes along, named so that the
    properties of the loop can refer to them: the result of the training
    pass, the validation score, the stopper's decision, the checkpoint. *)
Definition pass_result (st : State) : Trainer * float :=
  train (training st) (trainer st).

Definition score (st : State) : float :=
  validate (model (fst (pass_result st))).

Definition decision (st : State) : bool * bool :=
  fst (EarlyStopper.early_stop (early_stopper st) (score st)).

Definition config (epoch : Z) (st : State) : Checkpoint :=
  let tr := fst (pass_result st) in
  mkCheckpoint (epoch + 1)%Z (snd (pass_result st)) (model tr) (opt tr) (sched tr).

(** The events of one iteration, in order. *)
Definition iteration_events (epoch : Z) (st : State)
  : list event :=
  [Train epoch (training st); Validate epoch;
   EarlyStop (score st) (fst (decision st)) (snd (decision st));
   Save (Args.last_path args) (config epoch st)]
  ++ (if snd (decision st) then [Save (Args.best_path args) (config epoch st)] else [])
  ++ (if fst (decision st) then [Print (StopAt (epoch + 1)%Z)]
      else if Args.verbose args
           then [Print (EpochLine (epoch + 1)%Z (snd (pass_result st)) (score st))]
           else []).

(** The disk after one iteration. *)
Definition iteration_disk (epoch : Z) (st : State)
  : Files.Disk Checkpoint :=
  let d := Files.torch_save (disk st) (Args.last_path args) (config epoch st) in
  if snd (decision st)
  then Files.torch_save d (Args.best_path args) (config epoch st)
  else d.

(** The epoch and the state at the start of every iteration the loop runs. *)
Fixpoint loop_states (fuel : nat) (epoch : Z) (st : State)
  : list (Z * State) :=
  match fuel with
  | O => []
  | S fuel' =>
      (epoch, st)
      :: (let '(broke, st') := iteration epoch st in
          if broke then [] else loop_states fuel' (epoch + 1)%Z st')
  end.

Definition events_of (es : Z * State) : list event :=
  iteration_events (fst es) (snd es).

(** *** The order of an iteration, as the spec words it

    Train, Validate, the stopper's decision, the "last" checkpoint always, the
    "best" one when the decision says so, and only then the stop check. *)
Inductive iteration_shape (e : Z) : bool -> list event -> Prop :=
| shape_intro :
    forall (mode : bool) (es es' : EarlyStopper.t) (val_map train_loss : float)
           (stop save : bool) (ck : Checkpoint),
      EarlyStopper.early_stop es val_map = ((stop, save), es') ->
      epoch ck = (e + 1)%Z ->
      iteration_shape e stop
        ([Train e mode; Validate e; EarlyStop val_map stop save;
          Save (Args.last_path args) ck]
         ++ (if save then [Save (Args.best_path args) ck] else [])
         ++ (if stop then [Print (StopAt (e + 1))]
             else if Args.verbose args
                  then [Print (EpochLine (e + 1) train_loss val_map)]
                  else [])).

(** The RUNNING loop over the epochs [e, e+1, ..., num_epochs - 1]: it ends
    when the epochs are used up or right after an iteration that stops. *)
Inductive running_shape : Z -> list event -> Prop :=
| running_exhausted :
    forall e, (Args.num_epochs args <= e)%Z -> running_shape e []
| running_stopped :
    forall e blk,
      (e < Args.num_epochs args)%Z ->
      iteration_shape e true blk ->
      running_shape e blk
| running_next :
    forall e blk rest,
      (e < Args.num_epochs args)%Z ->
      iteration_shape e false blk ->
      running_shape (e + 1) rest ->
      running_shape e (blk ++ rest).

End Collaborators.

Arguments mkTrainer {Model Opt Sched} model opt sched.
Arguments model {Model Opt Sched} t.
Arguments opt {Model Opt Sched} t.
Arguments sched {Model Opt Sched} t.
Arguments mkCheckpoint {Model Opt Sched} epoch loss _ _ _.
Arguments epoch {Model Opt Sched} c.
Arguments loss {Model Opt Sched} c.
Arguments model_state_dict {Model Opt Sched} c.
Arguments opt_state_dict {Model Opt Sched} c.
Arguments sched_state_dict {Model Opt Sched} c.
Arguments Train {Model Opt Sched} epoch training.
Arguments Validate {Model Opt Sched} epoch.
Arguments EarlyStop {Model Opt Sched} val_map is_early_stopping is_save_ckpt.
Arguments Save {Model Opt Sched} path ck.
Arguments Print {Model Opt Sched} msg.
Arguments mkState {Model Opt Sched} trainer training early_stopper disk trace.
Arguments trainer {Model Opt Sched} s.
Arguments training {Model Opt Sched} s.
Arguments early_stopper {Model Opt Sched} s.
Arguments disk {Model Opt Sched} s.
Arguments trace {Model Opt Sched} s.
Arguments iteration {Model Opt Sched} train validate args epoch _.
Arguments loop {Model Opt Sched} train validate args fuel epoch st.
Arguments startup {Model Opt Sched} args fresh d.
Arguments main {Model Opt Sched} train validate args fresh d.
Arguments saved_at {Model Opt Sched} path tr.
Arguments train_modes {Model Opt Sched} tr.
Arguments is_pass {Model Opt Sched} e.
Arguments is_save {Model Opt Sched} e.
Arguments is_stop_message {Model Opt Sched} e.
Arguments pass_result {Model Opt Sched} train st.
Arguments score {Model Opt Sched} train validate st.
Arguments decision {Model Opt Sched} train validate st.
Arguments config {Model Opt Sched} train epoch st.
Arguments iteration_events {Model Opt Sched} train validate args epoch st.
Arguments iteration_disk {Model Opt Sched} train validate args epoch st.
Arguments loop_states {Model Opt Sched} train validate args fuel epoch st.
Arguments events_of {Model Opt Sched} train validate args es.
Arguments iteration_shape {Model Opt Sched} args e _ _.
Arguments running_shape {Model Opt Sched} args _ _.

End Main.

(** ** A small instance to run

    The model is the number of training passes it has seen; the validation
    score after [k] passes is the [k]-th score of the spec's scenario. *)

Module Demo.

Import Main.

Definition demo_train (mode : bool) (tr : Trainer nat unit unit)
  : Trainer nat unit unit * float :=
  (mkTrainer (S (model tr)) (opt tr) (sched tr), 0.25%float).

Definition demo_validate (m : nat) : float :=
  nth m [0; 10; 12; 11; 9; 8]%float 0%float.

Definition demo_fresh : Trainer nat unit unit := mkTrainer O tt tt.

Definition demo_args (num_epochs patience : Z) (resume : option string) : Args.t :=
  Args.mk num_epochs resume "weights" "cufed" patience 0.5%float 95%float false.

Definition demo_checkpoint (k : Z) : Checkpoint nat unit unit :=
  mkCheckpoint k 0.25%float (Z.to_nat k) tt tt.

Definition no_files : Files.Disk (Checkpoint nat unit unit) := fun _ => None.

Definition demo_disk (k : Z) : Files.Disk (Checkpoint nat unit unit) :=
  Files.torch_save no_files "ckpt.pt" (demo_checkpoint k).

Definition demo_main (a : Args.t) (d : Files.Disk (Checkpoint nat unit unit))
  : option (State nat unit unit) :=
  main demo_train demo_validate a demo_fresh d.

Definition demo_last : string := Args.last_path (demo_args 2 30 None).

End Demo.


(** ** More notions for the stopper *)

Module StopperNotions.

Import EarlyStopper.

(** The scores of the plateau of a stopper: below the threshold and between
    [best - min_delta] and [best]. *)
Definition plateau (self : t) (s : float) : Prop :=
  (s <? threshold self)%float = true
  /\ (max_validation_mAP self - min_delta self <=? s)%float = true
  /\ (s <=? max_validation_mAP self)%float = true.

End StopperNotions.

(** ** [train]: one pass over the training batches (lines 55-72)

    The model with its gradients and buffers, the optimizer and the scheduler
    are one state; the torch calls of the loop body are taken by their effect
    on it.  The log records the calls in the order they are made. *)

Module TrainPass.

(** [float(n)] for a length: the nearest binary64 number. *)
Definition float_of_nat (n : nat) : float :=
  SF2Prim (binary_normalize prec emax (Z.of_nat n) 0 false).

Section Torch.

Variables World Batch Output Loss : Type.

(** [opt.zero_grad()] *)
Variable zero_grad : World -> World.
(** [model(feats, feat_global, device)], under the current [model.training] *)
Variable forward : bool -> World -> Batch -> World * Output.
(** [crit(out_data, label)] *)
Variable crit : Output -> Batch -> Loss.
(** [loss.backward()] *)
Variable backward : World -> Loss -> World.
(** [opt.step()] *)
Variable opt_step : World -> World.
(** [loss.item()] *)
Variable item : Loss -> float.
(** [sched.step()] *)
Variable sched_step : World -> World.

Inductive call : Type :=
| ZeroGrad
| Forward (batch : Batch)
| Criterion
| Backward
| OptStep
| SchedStep.

(** The body of [for batch in loader]: the new state, the calls made and
    [loss.item()]. *)
Definition batch_body (training : bool) (w : World) (batch : Batch)
  : World * list call * float :=
  let w := zero_grad w in
  let '(w, out_data) := forward training w batch in
  let loss := crit out_data batch in
  let w := backward w loss in
  let w := opt_step w in
  (w, [ZeroGrad; Forward batch; Criterion; Backward; OptStep], item loss).

(** The loop: [epoch_loss += loss.item()] after every batch. *)
Fixpoint batches (training : bool) (w : World) (log : list call)
  (epoch_loss : float) (loader : list Batch) : World * list call * float :=
  match loader with
  | [] => (w, log, epoch_loss)
  | batch :: rest =>
      let '(w', calls, l) := batch_body training w batch in
      batches training w' (log ++ calls) (epoch_loss + l)%float rest
  end.

(** [train(model, loader, crit, opt, sched, device)].  [epoch_loss] starts
    as the integer 0, which the first [+=] turns into [0.0 + loss]; with no
    batch it is still the integer when it is divided by [len(loader) = 0],
    and the division raises [ZeroDivisionError]: the result [None]. *)
Definition train (training : bool) (w : World) (loader : list Batch)
  : World * list call * option float :=
  let '(w', log, epoch_loss) := batches training w [] 0%float loader in
  let w'' := sched_step w' in
  (w'', log ++ [SchedStep],
   match loader with
   | [] => None
   | _ :: _ => Some (epoch_loss / float_of_nat (List.length loader))%float
   end).

(** The values of [loss.item()], batch after batch. *)
Fixpoint losses (training : bool) (w : World) (loader : list Batch) : list float :=
  match loader with
  | [] => []
  | batch :: rest =>
      let '(w', _, l) := batch_body training w batch in
      l :: losses training w' rest
  end.

End Torch.

Arguments ZeroGrad {Batch}.
Arguments Forward {Batch} batch.
Arguments Criterion {Batch}.
Arguments Backward {Batch}.
Arguments OptStep {Batch}.
Arguments SchedStep {Batch}.
Arguments batch_body {World Batch Output Loss} zero_grad forward crit backward
  opt_step item training w batch.
Arguments batches {World Batch Output Loss} zero_grad forward crit backward
  opt_step item training w log epoch_loss loader.
Arguments train {World Batch Output Loss} zero_grad forward crit backward
  opt_step item sched_step training w loader.
Arguments losses {World Batch Output Loss} zero_grad forward crit backward
  opt_step item training w loader.

End TrainPass.

(** ** [validate]: filling the score matrix (lines 74-87)

    Arrays are lists of rows.  A batch output is a 2-D tensor: its width and
    its rows, each of that width. *)

Module ValidatePass.

Section Numpy.

(** The entries ([np.float32]) and [0.0]. *)
Variable A : Type.
Variable zero : A.

Record tensor : Type := mkTensor {
  width : nat;
  rows : list (list A)
}.

(** [np.zeros((n, c))] *)
Definition zeros (n c : nat) : list (list A) := repeat (repeat zero c) n.

(** Broadcasting the columns of a value to [c] columns: the widths agree, or
    the value has one column, which is repeated. *)
Definition broadcast_cols (c : nat) (out : tensor) : option (list (list A)) :=
  if Nat.eqb (width out) c then Some (rows out)
  else if Nat.eqb (width out) 1
       then Some (map (fun r => repeat (hd zero r) c) (rows out))
       else None.

(** [scores[gidx:gidx+shape, :] = out] with [shape = out.shape[0]]: the
    slice is clipped to the rows of [scores]; the value must have as many
    rows as the slice or a single row, which is repeated; [None] is the
    [ValueError] of a shape mismatch. *)
Definition assign_slice (c : nat) (scores : list (list A)) (gidx : nat)
  (out : tensor) : option (list (list A)) :=
  let n := List.length scores in
  let start := Nat.min gidx n in
  let stop := Nat.min (gidx + List.length (rows out)) n in
  match broadcast_cols c out with
  | None => None
  | Some value =>
      if Nat.eqb (List.length value) (stop - start)
      then Some (firstn start scores ++ value ++ skipn stop scores)
      else match value with
           | [r] => Some (firstn start scores ++ repeat r (stop - start)
                                 ++ skipn stop scores)
           | _ => None
           end
  end.

(** The loop over the batch outputs, with [gidx += shape]. *)
Fixpoint fill (c : nat) (scores : list (list A)) (gidx : nat)
  (outs : list tensor) : option (list (list A)) :=
  match outs with
  | [] => Some scores
  | out :: rest =>
      match assign_slice c scores gidx out with
      | None => None
      | Some scores' => fill c scores' (gidx + List.length (rows out)) rest
      end
  end.

Variables Model Batch : Type.

(** [model(feats, feat_global, device)] in inference mode, without gradient
    tracking. *)
Variable predict : Model -> Batch -> tensor.

(** [AP_partial(dataset.labels, scores)[2]] *)
Variable map_macro : list (list A) -> float.

(** [validate(model, dataset, loader, device)] for a dataset of [n] samples
    and [num_class] classes. *)
Definition validate (n num_class : nat) (m : Model) (loader : list Batch)
  : option float :=
  match fill num_class (zeros n num_class) 0 (map (predict m) loader) with
  | None => None
  | Some scores => Some (map_macro scores)
  end.

(** The number of rows the batch outputs hold together. *)
Definition total_rows (outs : list tensor) : nat :=
  list_sum (map (fun out => List.length (rows out)) outs).

End Numpy.

Arguments mkTensor {A} width rows.
Arguments width {A} t.
Arguments rows {A} t.
Arguments zeros {A} zero n c.
Arguments broadcast_cols {A} zero c out.
Arguments assign_slice {A} zero c scores gidx out.
Arguments fill {A} zero c scores gidx outs.
Arguments validate {A} zero {Model Batch} predict map_macro n num_class m loader.
Arguments total_rows {A} outs.

End ValidatePass.

(** ** The start of [main] (lines 89-102)

    Seeding, the save folder and the choice of the dataset. *)

Module Setup.

Inductive event : Type :=
| SeedNumpy (seed : Z)
| SeedTorch (seed : Z)
| SeedCuda (seed : Z)
| Mkdir (path : string).

Inductive outcome : Type :=
| Continue
| SysExit (msg : string)
| Raised.

(** [if args.seed:] and the three seeding calls.  [np.random.seed] takes
    seeds from 0 to [2**32 - 1] and raises [ValueError] on others. *)
Definition seeding (seed : Z) : list event * bool :=
  if (seed =? 0)%Z then ([], true)
  else if ((0 <=? seed) && (seed <? 2 ^ 32))%Z
       then ([SeedNumpy seed; SeedTorch seed; SeedCuda seed], true)
       else ([], false).

(** [if not os.path.exists(args.save_folder): os.mkdir(args.save_folder)];
    [exists] is what [os.path.exists] answers and [mkdir_ok] whether
    [os.mkdir] succeeds. *)
Definition ensure_folder (folder : string) (exists_ mkdir_ok : bool)
  : list event * bool :=
  if exists_ then ([], true)
  else if mkdir_ok then ([Mkdir folder], true) else ([], false).

(** Lines 90-102: [Continue] when control reaches the construction of the
    datasets. *)
Definition prologue (seed : Z) (a : Args.t) (exists_ mkdir_ok : bool)
  : list event * outcome :=
  let '(ev1, ok1) := seeding seed in
  if negb ok1 then (ev1, Raised)
  else
    let '(ev2, ok2) := ensure_folder (Args.save_folder a) exists_ mkdir_ok in
    if negb ok2 then (ev1 ++ ev2, Raised)
    else if String.eqb (Args.dataset a) "cufed"
         then (ev1 ++ ev2, Continue)
         else (ev1 ++ ev2, SysExit "Unknown dataset!").

Definition is_seeding (e : event) : bool :=
  match e with
  | Mkdir _ => false
  | _ => true
  end.

End Setup.

(** ** The whole of [main], with the ways it can end (lines 89-162)

    The start of [main], the construction of the datasets, the model, the
    optimizer and the scheduler (lines 99-117, [None] when one of them
    raises), the resume step and the epoch loop.  Here a training pass, a
    validation pass and a [torch.save] may raise; nothing in [main] catches
    an exception, so a raise ends the run where it happens. *)

Module Program.

Import Main.

(** How a call of [torch.save] ends: the file is written; the target was
    opened and the serialization broke off; the target could not be
    opened. *)
Inductive save_result : Type :=
| Saved
| Interrupted
| Refused.

Section Collaborators.

Variables Model Opt Sched : Type.

Local Abbreviation Trainer := (Main.Trainer Model Opt Sched).
Local Abbreviation Checkpoint := (Main.Checkpoint Model Opt Sched).
Local Abbreviation State := (Main.State Model Opt Sched).
Local Abbreviation Disk := (Files.Disk (Main.Checkpoint Model Opt Sched)).

(** [train(model, train_loader, crit, opt, sched, device)]; [None] when the
    pass raises (the division of line 72 with an empty loader). *)
Variable train : bool -> Trainer -> option (Trainer * float).

(** [validate(model, val_dataset, val_loader, device)] after its
    [model.eval()]; [None] when it raises (the assignment of line 84). *)
Variable validate : Model -> option float.

(** How the [torch.save] of epoch count [epoch_cnt] to a path ends. *)
Variable save : Z -> string -> save_result.

Variable args : Args.t.

(** State passing with exceptions: [None] is a raise, with the state at that
    point. *)
Definition Run (A : Type) : Type := State -> option A * State.

Definition ret {A : Type} (a : A) : Run A := fun st => (Some a, st).

Definition bind {A B : Type} (c : Run A) (k : A -> Run B) : Run B :=
  fun st =>
    match c st with
    | (Some a, st') => k a st'
    | (None, st') => (None, st')
    end.

Definition raise {A : Type} : Run A := fun st => (None, st).

(** A step that cannot raise. *)
Definition lift {A : Type} (c : Main.Run Model Opt Sched A) : Run A :=
  fun st => let '(a, st') := c st in (Some a, st').

Local Notation "x <- c ;; k" := (bind c (fun x => k))
  (at level 61, c at next level, right associativity).
Local Notation "c ;; k" := (bind c (fun _ => k))
  (at level 61, right associativity).

(** The pass is recorded when it returns. *)
Definition call_train (epoch : Z) : Run float :=
  fun st =>
    match train (training st) (trainer st) with
    | None => (None, st)
    | Some (tr, train_loss) =>
        (Some train_loss,
         mkState tr (training st) (early_stopper st) (disk st)
                 (trace st ++ [Train epoch (training st)]))
    end.

Definition call_validate (epoch : Z) : Run float :=
  lift (Main.emit Model Opt Sched (Validate epoch)) ;;
  lift (Main.set_training Model Opt Sched false) ;;
  fun st =>
    match validate (model (trainer st)) with
    | None => (None, st)
    | Some val_map => (Some val_map, st)
    end.

Definition torch_save (epoch_cnt : Z) (ck : Checkpoint) (path : string)
  : Run unit :=
  match save epoch_cnt path with
  | Saved => lift (Main.torch_save Model Opt Sched ck path)
  | Interrupted =>
      fun st =>
        (None, mkState (trainer st) (training st) (early_stopper st)
                       (Files.torch_save_interrupted (disk st) path ck)
                       (trace st))
  | Refused => raise
  end.

(** The body of the loop; the result tells whether it ended in [break]. *)
Definition iteration (epoch : Z) : Run bool :=
  let epoch_cnt := (epoch + 1)%Z in
  train_loss <- call_train epoch ;;
  val_map <- call_validate epoch ;;
  decision <- lift (Main.call_early_stop Model Opt Sched val_map) ;;
  let '(is_early_stopping, is_save_ckpt) := decision in
  config <- lift (Main.model_config Model Opt Sched epoch_cnt train_loss) ;;
  torch_save epoch_cnt config (Args.last_path args) ;;
  (if is_save_ckpt then torch_save epoch_cnt config (Args.best_path args)
   else ret tt) ;;
  if is_early_stopping then
    lift (Main.print Model Opt Sched (StopAt epoch_cnt)) ;; ret true
  else
    (if Args.verbose args
     then lift (Main.print Model Opt Sched (EpochLine epoch_cnt train_loss val_map))
     else ret tt) ;;
    ret false.

(** The loop over [range(epoch, epoch + fuel)]. *)
Fixpoint loop (fuel : nat) (epoch : Z) (st : State) : option unit * State :=
  match fuel with
  | O => (Some tt, st)
  | S fuel' =>
      match iteration epoch st with
      | (Some true, st') => (Some tt, st')
      | (Some false, st') => loop fuel' (epoch + 1)%Z st'
      | (None, st') => (None, st')
      end
  end.

(** How a run ends: [main] returns; [sys.exit]; an exception, with the
    checkpoint files and the trace at that point. *)
Inductive outcome : Type :=
| Returned (st : State)
| Exited (msg : string)
| Raised (d : Disk) (tr : list (event Model Opt Sched)).

(** [main()]: what it does to the random generators and the save folder, and
    how it ends.  [build] is what lines 99-117 construct. *)
Definition main (seed : Z) (exists_ mkdir_ok : bool) (build : option Trainer)
  (d : Disk) : list Setup.event * outcome :=
  match Setup.prologue seed args exists_ mkdir_ok with
  | (ev, Setup.SysExit msg) => (ev, Exited msg)
  | (ev, Setup.Raised) => (ev, Raised d [])
  | (ev, Setup.Continue) =>
      match build with
      | None => (ev, Raised d [])
      | Some fresh =>
          match Main.startup args fresh d with
          | None => (ev, Raised d [])
          | Some (start_epoch, st0) =>
              match loop (range_len start_epoch (Args.num_epochs args))
                         start_epoch st0 with
              | (Some _, st) => (ev, Returned st)
              | (None, st) => (ev, Raised (disk st) (trace st))
              end
          end
      end
  end.

(** The checkpoint files a run leaves. *)
Definition disk_after (d : Disk) (o : outcome) : Disk :=
  match o with
  | Returned st => disk st
  | Exited _ => d
  | Raised d' _ => d'
  end.

(** The collaborators of a run in which none of them raised, as [Main]
    takes them. *)
Definition total_train (training : bool) (tr : Trainer) : Trainer * float :=
  match train training tr with
  | Some r => r
  | None => (tr, 0%float)
  end.

Definition total_validate (m : Model) : float :=
  match validate m with
  | Some val_map => val_map
  | None => 0%float
  end.

End Collaborators.

Arguments iteration {Model Opt Sched} train validate save args epoch _.
Arguments loop {Model Opt Sched} train validate save args fuel epoch st.
Arguments Returned {Model Opt Sched} st.
Arguments Exited {Model Opt Sched} msg.
Arguments Raised {Model Opt Sched} d tr.
Arguments main {Model Opt Sched} train validate save args seed exists_ mkdir_ok
  build d.
Arguments disk_after {Model Opt Sched} d o.
Arguments total_train {Model Opt Sched} train training tr.
Arguments total_validate {Model} validate m.

(** A run of the small instance in which nothing raises, and one whose
    second validation pass raises. *)
Definition demo_main (a : Args.t) : list Setup.event * outcome nat unit unit :=
  main (fun b tr => Some (Demo.demo_train b tr))
       (fun m => Some (Demo.demo_validate m))
       (fun _ _ => Saved) a 2024 false true (Some Demo.demo_fresh) Demo.no_files.

Definition demo_broken (a : Args.t) : list Setup.event * outcome nat unit unit :=
  main (fun b tr => Some (Demo.demo_train b tr))
       (fun m => if Nat.eqb m 2 then None else Some (Demo.demo_validate m))
       (fun _ _ => Saved) a 2024 false true (Some Demo.demo_fresh) Demo.no_files.

End Program.

(** ** Values of binary floating-point numbers

    Integer readings of [SpecFloat]'s numbers, used to state the order and
    rounding facts below.  [prec] and [emax] are as in [SpecFloat]. *)

Module Binary.

(** The number of binary digits of a mantissa. *)
Definition digits (m : positive) : Z := Zpos (digits2_pos m).

(** Magnitude of the value [m * 2^e], in units of [2^emin]. *)
Definition F2Z (prec emax : Z) (m : positive) (e : Z) : Z :=
  (Zpos m * 2 ^ (e - SpecFloat.emin prec emax))%Z.

(** A bound just above every finite value. *)
Definition BIG (prec emax : Z) : Z := (2 ^ (emax - SpecFloat.emin prec emax))%Z.

(** The value of a number in units of [2^emin]; the infinities sit just
    outside the finite range. *)
Definition B2Z (prec emax : Z) (x : spec_float) : Z :=
  match x with
  | S754_zero _ => 0%Z
  | S754_infinity s => cond_Zopp s (BIG prec emax)
  | S754_nan => 0%Z
  | S754_finite s m e => cond_Zopp s (F2Z prec emax m e)
  end.

Definition is_nan_spec (x : spec_float) : bool :=
  match x with S754_nan => true | _ => false end.

End Binary.

Module Float64.

(** The value of a float in units of [2^-1074]. *)
Definition value (x : float) : Z := Binary.B2Z prec emax (Prim2SF x).

Definition nanb (x : float) : bool := Binary.is_nan_spec (Prim2SF x).

End Float64.

(** * Binary64 order and rounding

    [SpecFloat] specifies the primitive operations; this part derives from it
    that comparisons of valid numbers are comparisons of integer values (in
    units of the least subnormal), and that a rounded subtraction of a
    non-negative number does not exceed its first operand. *)

Module SpecOrder.

Section Format.

(** [prec] and [emax] as in [SpecFloat]: 53 and 1024 for binary64. *)
Variables prec emax : Z.
Hypothesis prec_pos : (0 < prec)%Z.
Hypothesis prec_lt_emax : (prec < emax)%Z.

Local Open Scope Z_scope.

Local Abbreviation emin := (SpecFloat.emin prec emax).
Local Abbreviation fexp := (SpecFloat.fexp prec emax).
Local Abbreviation canonical := (canonical_mantissa prec emax).
Local Abbreviation valid := (SpecFloat.valid_binary prec emax).
Local Abbreviation digits := Binary.digits.
Local Abbreviation F2Z := (Binary.F2Z prec emax).
Local Abbreviation BIG := (Binary.BIG prec emax).
Local Abbreviation B2Z := (Binary.B2Z prec emax).
Local Abbreviation is_nan_spec := Binary.is_nan_spec.

Lemma digits_pos m : 0 < digits m.
Proof. unfold Binary.digits. lia. Qed.

Lemma digits_bounds m : 2 ^ (digits m - 1) <= Zpos m < 2 ^ digits m.
Proof.
  unfold Binary.digits. induction m as [m IH | m IH |]; cbn [digits2_pos].
  - rewrite Pos2Z.inj_succ, (Pos2Z.inj_xI m).
    replace (Z.succ (Zpos (digits2_pos m)) - 1) with (Z.succ (Zpos (digits2_pos m) - 1)) by lia.
    rewrite !Z.pow_succ_r by lia.
    remember (2 ^ (Z.pos (digits2_pos m) - 1)) as A.
    remember (2 ^ Z.pos (digits2_pos m)) as B. clear HeqA HeqB. lia.
  - rewrite Pos2Z.inj_succ, (Pos2Z.inj_xO m).
    replace (Z.succ (Zpos (digits2_pos m)) - 1) with (Z.succ (Zpos (digits2_pos m) - 1)) by lia.
    rewrite !Z.pow_succ_r by lia.
    remember (2 ^ (Z.pos (digits2_pos m) - 1)) as A.
    remember (2 ^ Z.pos (digits2_pos m)) as B. clear HeqA HeqB. lia.
  - cbn. lia.
Qed.

Lemma fexp_ge_emin x : emin <= fexp x.
Proof. unfold SpecFloat.fexp. lia. Qed.

Lemma fexp_mono x y : x <= y -> fexp x <= fexp y.
Proof. unfold SpecFloat.fexp. lia. Qed.

Lemma canonical_facts m e :
  canonical m e = true ->
  emin <= e /\ digits m <= prec /\ (emin < e -> digits m = prec)
  /\ fexp (digits m + e) = e.
Proof.
  unfold canonical_mantissa, SpecFloat.fexp, digits. intros H.
  apply Z.eqb_eq in H. lia.
Qed.

Lemma F2Z_pos m e : emin <= e -> 0 < F2Z m e.
Proof. intros. unfold Binary.F2Z. assert (0 < 2 ^ (e - emin)) by (apply Z.pow_pos_nonneg; lia). lia. Qed.

(** A value below another has no more digits above the unit. *)
Lemma magnitude_mono (a b : positive) ea eb :
  emin <= ea -> emin <= eb ->
  F2Z a ea <= F2Z b eb -> digits a + ea <= digits b + eb.
Proof.
  intros Ha Hb H. unfold Binary.F2Z in H.
  destruct (digits_bounds a) as [La _]. destruct (digits_bounds b) as [_ Ub].
  pose proof (digits_pos a). pose proof (digits_pos b).
  destruct (Z_lt_le_dec (digits b + eb) (digits a + ea)) as [C|]; [exfalso | lia].
  assert (P1 : 2 ^ (digits a - 1) * 2 ^ (ea - emin) <= Z.pos a * 2 ^ (ea - emin)).
  { apply Z.mul_le_mono_nonneg_r; [apply Z.pow_nonneg; lia | lia]. }
  assert (P2 : Z.pos b * 2 ^ (eb - emin) < 2 ^ digits b * 2 ^ (eb - emin)).
  { apply Z.mul_lt_mono_pos_r; [apply Z.pow_pos_nonneg; lia | lia]. }
  rewrite <- Z.pow_add_r in P1, P2 by lia.
  assert (P3 : 2 ^ (digits b + (eb - emin)) <= 2 ^ (digits a - 1 + (ea - emin))).
  { apply Z.pow_le_mono_r; lia. }
  lia.
Qed.

(** On canonical pairs the exponent decides the order first. *)
Lemma canonical_exp_lt m1 e1 m2 e2 :
  canonical m1 e1 = true -> canonical m2 e2 = true ->
  e1 < e2 -> F2Z m1 e1 < F2Z m2 e2.
Proof.
  intros C1 C2 Hlt.
  destruct (canonical_facts _ _ C1) as (E1 & D1 & _ & F1).
  destruct (canonical_facts _ _ C2) as (E2 & D2 & N2 & F2).
  destruct (Z_lt_le_dec (F2Z m1 e1) (F2Z m2 e2)) as [|C]; [assumption | exfalso].
  apply magnitude_mono in C; try assumption.
  apply fexp_mono in C. lia.
Qed.

Lemma F2Z_same_exp m1 m2 e :
  emin <= e -> (F2Z m1 e ?= F2Z m2 e) = (Zpos m1 ?= Zpos m2).
Proof.
  intros He. unfold Binary.F2Z.
  assert (0 < 2 ^ (e - emin)) by (apply Z.pow_pos_nonneg; lia).
  destruct (Z.compare_spec (Zpos m1) (Zpos m2)) as [E|L|G].
  - rewrite E. apply Z.compare_refl.
  - apply Z.compare_lt_iff. nia.
  - apply Z.compare_gt_iff. nia.
Qed.

Lemma digits_unique m d :
  2 ^ (d - 1) <= Zpos m < 2 ^ d -> digits m = d.
Proof.
  intros [L U]. destruct (digits_bounds m) as [L' U'].
  pose proof (digits_pos m).
  assert (0 < d).
  { destruct (Z_lt_le_dec 0 d); [assumption | exfalso].
    assert (2 ^ d <= 2 ^ 0) by (apply Z.pow_le_mono_r; lia).
    change (2 ^ 0) with 1 in *. lia. }
  assert (digits m - 1 < d).
  { apply (Z.pow_lt_mono_r_iff 2); lia. }
  assert (d - 1 < digits m).
  { apply (Z.pow_lt_mono_r_iff 2); lia. }
  lia.
Qed.

Lemma digits_le m d : 0 <= d -> Zpos m < 2 ^ d -> digits m <= d.
Proof.
  intros Hd U. destruct (digits_bounds m) as [L' _].
  assert (digits m - 1 < d) by (apply (Z.pow_lt_mono_r_iff 2); lia).
  lia.
Qed.

(** *** Right shifts with sticky bits *)

Lemma iter_pos_nat {A} (f : A -> A) p x :
  iter_pos f p x = Nat.iter (Pos.to_nat p) f x.
Proof.
  revert x. induction p as [p IH | p IH |]; intros x; cbn [iter_pos].
  - rewrite !IH, Pos2Nat.inj_xI. cbn [Nat.mul]. rewrite Nat.add_0_r.
    rewrite Nat.iter_succ_r, Nat.iter_add. reflexivity.
  - rewrite !IH, Pos2Nat.inj_xO. cbn [Nat.mul]. rewrite Nat.add_0_r.
    rewrite Nat.iter_add. reflexivity.
  - reflexivity.
Qed.

Lemma shr_1_m mrs : 0 <= shr_m mrs -> shr_m (shr_1 mrs) = shr_m mrs / 2.
Proof.
  destruct mrs as [m r s]. cbn [shr_m]. intros Hm.
  destruct m as [| p | p]; [reflexivity | | lia].
  destruct p as [p | p |]; cbn [shr_1 shr_m].
  - rewrite (Pos2Z.inj_xI p).
    apply Z.div_unique with (r := 1); lia.
  - rewrite (Pos2Z.inj_xO p).
    apply Z.div_unique with (r := 0); lia.
  - reflexivity.
Qed.

Lemma shr_1_flags mrs :
  0 <= shr_m mrs ->
  shr_r (shr_1 mrs) = Z.odd (shr_m mrs)
  /\ shr_s (shr_1 mrs) = shr_r mrs || shr_s mrs.
Proof.
  destruct mrs as [m r s]. cbn [shr_m shr_r shr_s]. intros Hm.
  destruct m as [| p | p]; [auto | | lia].
  destruct p; cbn [shr_1 shr_r shr_s]; auto.
Qed.

(** After [k] single shifts of [(W, false, false)] the mantissa is
    [W / 2^k], and both flags are clear when the shift lost nothing. *)
Lemma shr_iter W k :
  0 <= W ->
  let mrs := Nat.iter k shr_1 (Build_shr_record W false false) in
  shr_m mrs = W / 2 ^ Z.of_nat k
  /\ ((2 ^ Z.of_nat k | W) -> shr_r mrs = false /\ shr_s mrs = false).
Proof.
  intros HW. induction k as [| k IH]; cbn zeta in *.
  - cbn [Nat.iter shr_m shr_r shr_s]. change (2 ^ Z.of_nat 0) with 1.
    rewrite Z.div_1_r. auto.
  - rewrite Nat.iter_succ. destruct IH as [IHm IHf].
    set (mrs := Nat.iter k shr_1 _) in *.
    assert (P : 0 < 2 ^ Z.of_nat k) by (apply Z.pow_pos_nonneg; lia).
    assert (Hm : 0 <= shr_m mrs) by (rewrite IHm; apply Z.div_pos; lia).
    rewrite Nat2Z.inj_succ, Z.pow_succ_r by lia.
    split.
    + rewrite shr_1_m, IHm by assumption.
      rewrite Z.div_div by lia. f_equal. lia.
    + intros [z Hz]. destruct (shr_1_flags mrs Hm) as [Er Es].
      rewrite Er, Es.
      assert (D : (2 ^ Z.of_nat k | W)) by (exists (z * 2); lia).
      destruct (IHf D) as [-> ->].
      rewrite IHm. replace W with (z * 2 * 2 ^ Z.of_nat k) by lia.
      rewrite Z.div_mul by lia. rewrite Z.odd_mul. cbn. rewrite andb_false_r. auto.
Qed.

Lemma shr_fexp_exact W e :
  0 <= W ->
  let n := Z.max 0 (fexp (Zdigits2 W + e) - e) in
  exists mrs,
    shr_fexp prec emax W e loc_Exact = (mrs, e + n)
    /\ shr_m mrs = W / 2 ^ n
    /\ ((2 ^ n | W) -> loc_of_shr_record mrs = loc_Exact).
Proof.
  intros HW n. unfold shr_fexp, shr. cbn [shr_record_of_loc].
  subst n. destruct (fexp (Zdigits2 W + e) - e) as [| p | p] eqn:E.
  - exists (Build_shr_record W false false). cbn [shr_m loc_of_shr_record].
    change (Z.max 0 0) with 0. change (2 ^ 0) with 1.
    rewrite Z.div_1_r, Z.add_0_r. auto.
  - rewrite iter_pos_nat.
    destruct (shr_iter W (Pos.to_nat p) HW) as [Hm Hf].
    rewrite positive_nat_Z in Hm, Hf.
    replace (Z.max 0 (Z.pos p)) with (Z.pos p) by lia.
    eexists. split; [reflexivity|]. split; [exact Hm|].
    intros D. destruct (Hf D) as [Hr Hs].
    destruct (Nat.iter _ _ _) as [m r s]. cbn in Hr, Hs. subst. reflexivity.
  - exists (Build_shr_record W false false). cbn [shr_m loc_of_shr_record].
    replace (Z.max 0 (Z.neg p)) with 0 by lia. change (2 ^ 0) with 1.
    rewrite Z.div_1_r, Z.add_0_r. auto.
Qed.

Lemma round_nearest_even_bounds q l :
  q <= round_nearest_even q l <= q + 1
  /\ (l = loc_Exact -> round_nearest_even q l = q).
Proof.
  destruct l as [| []]; cbn [round_nearest_even]; try destruct (Z.even q); split;
    try lia; try reflexivity; intros; discriminate.
Qed.

Lemma pow2_gt0 k : 0 <= k -> 0 < 2 ^ k.
Proof. intros. apply Z.pow_pos_nonneg; lia. Qed.

Lemma pow2_split a b : 0 <= a -> 0 <= b -> 2 ^ (a + b) = 2 ^ a * 2 ^ b.
Proof. intros. apply Z.pow_add_r; assumption. Qed.

Lemma canonical_lt_pow m e : canonical m e = true -> Zpos m < 2 ^ prec.
Proof.
  intros C. destruct (canonical_facts _ _ C) as (_ & D & _).
  destruct (digits_bounds m) as [_ U].
  assert (2 ^ digits m <= 2 ^ prec) by (apply Z.pow_le_mono_r; lia). lia.
Qed.

(** The second normalisation of [binary_round_aux] loses nothing: the
    rounded mantissa has at most [prec] digits, or is exactly [2^prec]. *)
Lemma renormalise_exact mx1 e1 :
  emin <= e1 -> 0 <= mx1 <= 2 ^ prec ->
  let n2 := Z.max 0 (fexp (Zdigits2 mx1 + e1) - e1) in
  (n2 = 0 \/ (n2 = 1 /\ mx1 = 2 ^ prec)) /\ mx1 / 2 ^ n2 * 2 ^ n2 = mx1.
Proof.
  intros He [L U] n2.
  assert (Hcase : n2 = 0 \/ (n2 = 1 /\ mx1 = 2 ^ prec)).
  { subst n2. destruct mx1 as [| p | p]; [| | lia].
    - left. cbn [Zdigits2]. unfold SpecFloat.fexp. lia.
    - cbn [Zdigits2]. fold (digits p).
      destruct (Z_lt_le_dec (Zpos p) (2 ^ prec)) as [Hlt | Hge].
      + left. pose proof (digits_le p prec ltac:(lia) Hlt).
        unfold SpecFloat.fexp. lia.
      + right. assert (E : Zpos p = 2 ^ prec) by lia.
        assert (D : digits p = prec + 1).
        { apply digits_unique. replace (prec + 1 - 1) with prec by lia.
          rewrite E. split; [lia|]. apply Z.pow_lt_mono_r; lia. }
        rewrite D. unfold SpecFloat.fexp. lia. }
  split; [assumption|].
  destruct Hcase as [-> | [-> ->]].
  - change (2 ^ 0) with 1. rewrite Z.div_1_r. lia.
  - change (2 ^ 1) with 2.
    replace prec with (Z.succ (prec - 1)) by lia.
    rewrite Z.pow_succ_r by lia.
    rewrite (Z.mul_comm 2), Z.div_mul by lia. reflexivity.
Qed.

(** *** Rounding an integer mantissa to the format

    [binary_round_aux] on a positive mantissa [W] at an exponent not above
    the canonical one yields a mantissa and an exponent whose value stays
    on the same side of every canonical number as [W * 2^e]. *)
Lemma binary_round_aux_spec s (W : positive) e :
  emin <= e -> e <= fexp (digits W + e) ->
  exists mf ef,
    0 <= mf /\ emin <= ef
    /\ binary_round_aux prec emax s (Zpos W) e loc_Exact
       = match mf with
         | Z0 => S754_zero s
         | Zpos m =>
             if ef <=? emax - prec then S754_finite s m ef else S754_infinity s
         | Zneg _ => S754_nan
         end
    /\ (forall mx ex, canonical mx ex = true -> F2Z W e <= F2Z mx ex ->
          mf * 2 ^ (ef - emin) <= F2Z mx ex /\ ef <= ex)
    /\ (forall mx ex, canonical mx ex = true -> F2Z mx ex <= F2Z W e ->
          F2Z mx ex <= mf * 2 ^ (ef - emin)).
Proof.
  intros He Hcan.
  set (e1 := fexp (digits W + e)) in *.
  set (n := e1 - e).
  assert (Hn : 0 <= n) by (subst n; lia).
  destruct (shr_fexp_exact (Zpos W) e ltac:(lia)) as (mrs1 & S1 & M1 & X1).
  cbn [Zdigits2] in S1, M1, X1. fold (digits W) in S1, M1, X1. fold e1 in S1, M1, X1.
  replace (Z.max 0 (e1 - e)) with n in * by (subst n; lia).
  replace (e + n) with e1 in S1 by (subst n; lia).
  set (q := Zpos W / 2 ^ n) in *.
  set (mx1 := round_nearest_even (shr_m mrs1) (loc_of_shr_record mrs1)).
  destruct (round_nearest_even_bounds (shr_m mrs1) (loc_of_shr_record mrs1))
    as [[R1 R2] R3]. fold mx1 in R1, R2, R3. rewrite M1 in R1, R2, R3.
  assert (Pn : 0 < 2 ^ n) by (apply pow2_gt0; lia).
  assert (Hq0 : 0 <= q) by (apply Z.div_pos; lia).
  assert (He1 : emin <= e1) by (apply fexp_ge_emin).
  assert (Hnp : digits W <= n + prec).
  { subst n e1. unfold SpecFloat.fexp. lia. }
  assert (Hq : q < 2 ^ prec).
  { apply Z.div_lt_upper_bound; [assumption|].
    rewrite <- pow2_split by lia.
    destruct (digits_bounds W) as [_ U].
    assert (2 ^ digits W <= 2 ^ (n + prec)) by (apply Z.pow_le_mono_r; lia). lia. }
  destruct (renormalise_exact mx1 e1 He1 ltac:(lia)) as [N2 X2].
  destruct (shr_fexp_exact mx1 e1 ltac:(lia)) as (mrs2 & S2 & M2 & _).
  set (n2 := Z.max 0 (fexp (Zdigits2 mx1 + e1) - e1)) in *.
  assert (Hn2 : 0 <= n2) by (subst n2; lia).
  assert (Pn2 : 0 < 2 ^ n2) by (apply pow2_gt0; lia).
  exists (mx1 / 2 ^ n2), (e1 + n2).
  assert (V : mx1 / 2 ^ n2 * 2 ^ (e1 + n2 - emin) = mx1 * 2 ^ (e1 - emin)).
  { replace (e1 + n2 - emin) with (n2 + (e1 - emin)) by lia.
    rewrite pow2_split by lia. rewrite Z.mul_assoc, X2. reflexivity. }
  assert (Pe : 0 < 2 ^ (e - emin)) by (apply pow2_gt0; lia).
  assert (Pe1 : 0 < 2 ^ (e1 - emin)) by (apply pow2_gt0; lia).
  assert (E1 : 2 ^ (e1 - emin) = 2 ^ n * 2 ^ (e - emin)).
  { rewrite <- pow2_split by lia. f_equal. subst n. lia. }
  split; [apply Z.div_pos; lia|]. split; [lia|]. split.
  { unfold binary_round_aux. rewrite S1. fold mx1. rewrite S2, M2. reflexivity. }
  split.
  - intros mx ex C Hle. rewrite V.
    destruct (canonical_facts _ _ C) as (Eex & Dm & _ & Fm).
    assert (Hex : e1 <= ex).
    { apply magnitude_mono in Hle; try assumption.
      apply fexp_mono in Hle. subst e1. lia. }
    set (F := Zpos mx * 2 ^ (ex - e1)).
    assert (PF : 0 < 2 ^ (ex - e1)) by (apply pow2_gt0; lia).
    assert (EF : F2Z mx ex = F * 2 ^ (e1 - emin)).
    { unfold Binary.F2Z, F. rewrite <- Z.mul_assoc, <- pow2_split by lia.
      do 2 f_equal. lia. }
    assert (HW : Zpos W <= 2 ^ n * F).
    { unfold Binary.F2Z at 1 in Hle. rewrite EF, E1 in Hle.
      apply (Z.mul_le_mono_pos_r _ _ (2 ^ (e - emin))); [assumption|]. lia. }
    assert (HqF : q <= F) by (apply Z.div_le_upper_bound; assumption).
    assert (Hm1 : mx1 <= F).
    { destruct (Z_lt_le_dec q F) as [|Hge]; [lia|].
      assert (q = F) by lia. subst F.
      pose proof (Z.mul_div_le (Zpos W) (2 ^ n) Pn) as Hfl. fold q in Hfl.
      assert (EW : Zpos W = q * 2 ^ n) by nia.
      rewrite R3; [lia|]. apply X1. exists q. exact EW. }
    split.
    + rewrite EF. apply Z.mul_le_mono_nonneg_r; lia.
    + destruct N2 as [-> | [-> Emx1]]; [lia|].
      pose proof (canonical_lt_pow _ _ C) as Hmx.
      assert (Hlt : 2 ^ prec * 2 ^ (e1 - emin) < 2 ^ prec * 2 ^ (ex - emin)).
      { assert (Pex : 0 < 2 ^ (ex - emin)) by (apply pow2_gt0; lia).
        assert (mx1 * 2 ^ (e1 - emin) <= F2Z mx ex).
        { rewrite EF. apply Z.mul_le_mono_nonneg_r; lia. }
        unfold Binary.F2Z in *. rewrite Emx1 in *. nia. }
      assert (P : 0 < 2 ^ prec) by (apply pow2_gt0; lia).
      assert (Hlt' : 2 ^ (e1 - emin) < 2 ^ (ex - emin)) by nia.
      apply Z.pow_lt_mono_r_iff in Hlt'; lia.
  - intros mx ex C Hle. rewrite V.
    destruct (canonical_facts _ _ C) as (Eex & Dm & Nm & Fm).
    assert (Hex : ex <= e1).
    { apply magnitude_mono in Hle; try assumption.
      apply fexp_mono in Hle. subst e1. lia. }
    assert (Hqv : F2Z mx ex <= q * 2 ^ (e1 - emin)).
    { destruct (Z.eq_dec ex e1) as [Eq | Ne].
      - unfold Binary.F2Z in *. rewrite Eq in *. rewrite E1 in *.
        assert (2 ^ n * Zpos mx <= Zpos W).
        { apply (Z.mul_le_mono_pos_r _ _ (2 ^ (e - emin))); [assumption|]. lia. }
        assert (Zpos mx <= q) by (apply Z.div_le_lower_bound; assumption).
        rewrite <- E1. apply Z.mul_le_mono_nonneg_r; lia.
      - assert (Elt : ex < e1) by lia.
        assert (En : n = digits W - prec).
        { subst n e1. unfold SpecFloat.fexp in *. lia. }
        assert (Hq1 : 2 ^ (prec - 1) <= q).
        { apply Z.div_le_lower_bound; [assumption|].
          rewrite <- pow2_split by lia.
          replace (n + (prec - 1)) with (digits W - 1) by lia.
          apply digits_bounds. }
        pose proof (canonical_lt_pow _ _ C) as Hmx.
        assert (Pex : 0 < 2 ^ (ex - emin)) by (apply pow2_gt0; lia).
        assert (B1 : F2Z mx ex < 2 ^ (prec + (ex - emin))).
        { rewrite pow2_split by lia. unfold Binary.F2Z. nia. }
        assert (B2 : 2 ^ (prec + (ex - emin)) <= 2 ^ (prec - 1 + (e1 - emin))).
        { apply Z.pow_le_mono_r; lia. }
        rewrite (pow2_split (prec - 1) (e1 - emin)) in B2 by lia.
        assert (2 ^ (prec - 1) * 2 ^ (e1 - emin) <= q * 2 ^ (e1 - emin)).
        { apply Z.mul_le_mono_nonneg_r; lia. }
        lia. }
    assert (q * 2 ^ (e1 - emin) <= mx1 * 2 ^ (e1 - emin)).
    { apply Z.mul_le_mono_nonneg_r; lia. }
    lia.
Qed.

Lemma iter_xO_value m d : Zpos (Pos.iter xO m d) = Zpos m * 2 ^ Zpos d.
Proof.
  rewrite (Pos.iter_swap_gen _ _ Zpos xO (Z.mul 2)) by reflexivity.
  change (Pos.iter (Z.mul 2) (Zpos m) d) with (Z.shiftl (Zpos m) (Zpos d)).
  apply Z.shiftl_mul_pow2. lia.
Qed.

Lemma shl_align_spec m e e' :
  let '(mz, ez) := shl_align m e e' in
  ez = Z.min e e' /\ Zpos mz = Zpos m * 2 ^ (e - ez).
Proof.
  unfold shl_align. destruct (e' - e) as [| p | p] eqn:E.
  - split; [lia|]. rewrite Z.sub_diag. change (2 ^ 0) with 1. lia.
  - split; [lia|]. rewrite Z.sub_diag. change (2 ^ 0) with 1. lia.
  - split; [lia|]. rewrite iter_xO_value. do 2 f_equal. lia.
Qed.

Lemma F2Z_shift m e mz ez :
  emin <= ez -> ez <= e -> Zpos mz = Zpos m * 2 ^ (e - ez) ->
  F2Z mz ez = F2Z m e /\ digits mz + ez = digits m + e.
Proof.
  intros H1 H2 E. split.
  - unfold Binary.F2Z. rewrite E, <- Z.mul_assoc, <- pow2_split by lia.
    do 2 f_equal. lia.
  - assert (D : digits mz = digits m + (e - ez)); [|lia].
    apply digits_unique. rewrite E.
    destruct (digits_bounds m) as [L U]. pose proof (digits_pos m).
    assert (P : 0 < 2 ^ (e - ez)) by (apply pow2_gt0; lia).
    replace (digits m + (e - ez) - 1) with (digits m - 1 + (e - ez)) by lia.
    rewrite !pow2_split by lia. nia.
Qed.

Lemma binary_round_spec s (W : positive) e :
  emin <= e ->
  exists mf ef,
    0 <= mf /\ emin <= ef
    /\ binary_round prec emax s W e
       = match mf with
         | Z0 => S754_zero s
         | Zpos m =>
             if ef <=? emax - prec then S754_finite s m ef else S754_infinity s
         | Zneg _ => S754_nan
         end
    /\ (forall mx ex, canonical mx ex = true -> F2Z W e <= F2Z mx ex ->
          mf * 2 ^ (ef - emin) <= F2Z mx ex /\ ef <= ex)
    /\ (forall mx ex, canonical mx ex = true -> F2Z mx ex <= F2Z W e ->
          F2Z mx ex <= mf * 2 ^ (ef - emin)).
Proof.
  intros He. unfold binary_round. fold (digits W).
  pose proof (shl_align_spec W e (fexp (digits W + e))) as A.
  destruct (shl_align W e (fexp (digits W + e))) as [mz ez].
  destruct A as [Ez Em].
  pose proof (fexp_ge_emin (digits W + e)).
  destruct (F2Z_shift W e mz ez ltac:(lia) ltac:(lia) Em) as [V D].
  rewrite <- V.
  apply binary_round_aux_spec; [lia|]. rewrite D. lia.
Qed.

(** *** Values of valid numbers *)

Lemma bounded_facts m e :
  bounded prec emax m e = true -> canonical m e = true /\ 0 < F2Z m e < BIG.
Proof.
  unfold bounded. intros H. apply andb_prop in H. destruct H as [C B].
  apply Z.leb_le in B. split; [assumption|].
  destruct (canonical_facts _ _ C) as (Ee & _).
  pose proof (canonical_lt_pow _ _ C) as Hm.
  split; [apply F2Z_pos; assumption|].
  unfold Binary.F2Z, Binary.BIG.
  assert (P : 0 < 2 ^ (e - emin)) by (apply pow2_gt0; lia).
  assert (2 ^ (prec + (e - emin)) <= 2 ^ (emax - emin)) by (apply Z.pow_le_mono_r; lia).
  rewrite pow2_split in * by lia. nia.
Qed.

Lemma BIG_pos : 0 < BIG.
Proof.
  unfold Binary.BIG. apply pow2_gt0. unfold SpecFloat.emin. lia.
Qed.

Ltac order_by_value :=
  cbn [cond_Zopp];
  first [ apply Z.compare_eq_iff; lia
        | apply Z.compare_lt_iff; lia
        | apply Z.compare_gt_iff; lia ].

(** On valid numbers [SFcompare] is the order of the values. *)
Lemma SFcompare_B2Z x y :
  valid x = true -> valid y = true ->
  is_nan_spec x = false -> is_nan_spec y = false ->
  SFcompare x y = Some (B2Z x ?= B2Z y).
Proof.
  pose proof BIG_pos as PB.
  destruct x as [sx | sx | | sx mx ex], y as [sy | sy | | sy my ey];
    cbn [valid_binary Binary.is_nan_spec]; intros Vx Vy Nx Ny; try discriminate;
    try (apply bounded_facts in Vx; destruct Vx as [Cx [Px Bx]]);
    try (apply bounded_facts in Vy; destruct Vy as [Cy [Py By]]);
    cbn [SFcompare Binary.B2Z]; f_equal; symmetry.
  - destruct sy; order_by_value.
  - destruct sy; order_by_value.
  - destruct sx; order_by_value.
  - destruct sx, sy; order_by_value.
  - destruct sx, sy; order_by_value.
  - destruct sx; order_by_value.
  - destruct sx, sy; order_by_value.
  - destruct (canonical_facts _ _ Cx) as (Eex & _).
    destruct sx, sy; cbn [cond_Zopp].
    + rewrite Z.compare_opp.
      destruct (Z.compare_spec ex ey) as [E | L | G].
      * subst ey. rewrite F2Z_same_exp by assumption.
        change (Pos.compare_cont Eq mx my) with (Zpos mx ?= Zpos my).
        apply Z.compare_antisym.
      * apply Z.compare_gt_iff. apply canonical_exp_lt; assumption.
      * apply Z.compare_lt_iff. apply canonical_exp_lt; assumption.
    + apply Z.compare_lt_iff. lia.
    + apply Z.compare_gt_iff. lia.
    + destruct (Z.compare_spec ex ey) as [E | L | G].
      * subst ey. rewrite F2Z_same_exp by assumption. reflexivity.
      * apply Z.compare_lt_iff. apply canonical_exp_lt; assumption.
      * apply Z.compare_gt_iff. apply canonical_exp_lt; assumption.
Qed.

(** *** Subtracting a non-negative number does not go up *)

Lemma SFsub_nonneg_le x d :
  valid x = true -> valid d = true ->
  SFleb (S754_zero false) d = true ->
  is_nan_spec (SFsub prec emax x d) = true
  \/ (is_nan_spec x = false /\ B2Z (SFsub prec emax x d) <= B2Z x).
Proof.
  pose proof BIG_pos as PB.
  intros Vx Vd Hd.
  destruct d as [sd | [|] | | [|] md ed]; try discriminate Hd; clear Hd.
  - (* d is a zero *)
    destruct x as [sx | sx | | sx mx ex]; cbn [SFsub Binary.is_nan_spec];
      [right | right | left | right]; auto; split; auto; try lia.
    destruct sx, sd; cbn [Binary.B2Z]; lia.
  - (* d is +infinity *)
    destruct x as [sx | [|] | | sx mx ex]; cbn [SFsub Binary.is_nan_spec negb];
      [right | right | left | left | right]; auto; split; auto;
      cbn [Binary.B2Z cond_Zopp]; try lia.
    cbn [valid_binary] in Vx. apply bounded_facts in Vx.
    destruct sx; cbn [cond_Zopp]; lia.
  - (* d is finite and positive *)
    cbn [valid_binary] in Vd. apply bounded_facts in Vd.
    destruct Vd as [Cd [Pd Bd]].
    destruct (canonical_facts _ _ Cd) as (Eed & _).
    destruct x as [sx | sx | | sx mx ex]; cbn [SFsub Binary.is_nan_spec negb];
      [right | right | left | ]; auto; try (split; [reflexivity|]).
    + cbn [Binary.B2Z cond_Zopp]. lia.
    + lia.
    + cbn [valid_binary] in Vx. apply bounded_facts in Vx.
      destruct Vx as [Cx [Px Bx]].
      destruct (canonical_facts _ _ Cx) as (Eex & _).
      set (ez := Z.min ex ed).
      pose proof (shl_align_spec mx ex ez) as Ax.
      pose proof (shl_align_spec md ed ez) as Ad.
      destruct (shl_align mx ex ez) as [Mx ezx].
      destruct (shl_align md ed ez) as [Md ezd].
      destruct Ax as [Ezx EMx]. destruct Ad as [Ezd EMd].
      cbn [fst].
      subst ezx ezd.
      replace (Z.min ex ez) with ez in EMx by (subst ez; lia).
      replace (Z.min ed ez) with ez in EMd by (subst ez; lia).
      assert (Hez : emin <= ez) by (subst ez; lia).
      destruct (F2Z_shift mx ex Mx ez Hez ltac:(subst ez; lia) EMx) as [VMx _].
      destruct (F2Z_shift md ed Md ez Hez ltac:(subst ez; lia) EMd) as [VMd _].
      assert (Pz : 0 < 2 ^ (ez - emin)) by (apply pow2_gt0; lia).
      cbn [cond_Zopp].
      remember (cond_Zopp sx (Z.pos Mx) - Z.pos Md) as Wz eqn:EW.
      destruct Wz as [| w | w]; cbn [binary_normalize].
      * right. split; [reflexivity|]. cbn [Binary.B2Z].
        destruct sx; cbn [cond_Zopp] in *; lia.
      * destruct sx; cbn [cond_Zopp] in EW; [lia|].
        destruct (binary_round_spec false w ez Hez)
          as (mf & ef & Hmf & Hef & Eq & L1 & _).
        destruct (L1 mx ex Cx) as [Hv Hex].
        { rewrite <- VMx. unfold Binary.F2Z. apply Z.mul_le_mono_nonneg_r; lia. }
        rewrite Eq. right. split; [reflexivity|]. cbn [Binary.B2Z cond_Zopp].
        destruct mf as [| m | m]; [cbn [Binary.B2Z]; lia | | lia].
        assert (Hb : (ef <=? emax - prec) = true).
        { apply Z.leb_le.
          revert Hex. clear - Cx Bx Px prec_pos prec_lt_emax. intros.
          destruct (Z_le_gt_dec ex (emax - prec)); [lia | exfalso].
          pose proof (canonical_facts _ _ Cx) as (E1 & _ & N1 & _).
          assert (D : digits mx = prec) by (apply N1; unfold SpecFloat.emin in *; lia).
          destruct (digits_bounds mx) as [L _]. rewrite D in L.
          unfold Binary.F2Z, Binary.BIG in Bx.
          assert (P : 0 < 2 ^ (ex - emin)) by (apply pow2_gt0; lia).
          assert (2 ^ (emax - emin) <= 2 ^ (prec - 1 + (ex - emin)))
            by (apply Z.pow_le_mono_r; lia).
          rewrite pow2_split in * by lia. nia. }
        rewrite Hb. cbn [Binary.B2Z cond_Zopp]. exact Hv.
      * destruct (binary_round_spec true w ez Hez)
          as (mf & ef & Hmf & Hef & Eq & _ & L2).
        rewrite Eq.
        assert (Pf : 0 < 2 ^ (ef - emin)) by (apply pow2_gt0; lia).
        destruct sx; cbn [cond_Zopp] in EW.
        -- assert (Hv : F2Z mx ex <= mf * 2 ^ (ef - emin)).
           { apply L2; [assumption|]. rewrite <- VMx. unfold Binary.F2Z.
             apply Z.mul_le_mono_nonneg_r; lia. }
           destruct mf as [| m | m]; [lia | | lia].
           destruct (ef <=? emax - prec); cbn [Binary.is_nan_spec Binary.B2Z cond_Zopp];
             right; (split; [reflexivity|]); [exact (proj1 (Z.opp_le_mono _ _) Hv) | lia].
        -- destruct mf as [| m | m]; [| | lia].
           ++ right. split; [reflexivity|]. cbn [Binary.B2Z cond_Zopp]. lia.
           ++ destruct (ef <=? emax - prec); cbn [Binary.is_nan_spec Binary.B2Z cond_Zopp];
                right; (split; [reflexivity|]); [|lia].
              assert (0 < F2Z m ef) by (apply F2Z_pos; lia). lia.
Qed.
End Format.
End SpecOrder.

(** ** Order facts on binary64 numbers *)

Module Float64Facts.

Import Float64.

Local Open Scope Z_scope.

Lemma format_prec : 0 < prec.
Proof. reflexivity. Qed.

Lemma format_emax : prec < emax.
Proof. reflexivity. Qed.

Lemma compare_value x y :
  SFcompare (Prim2SF x) (Prim2SF y)
  = if nanb x || nanb y then None else Some (value x ?= value y).
Proof.
  unfold nanb, value.
  destruct (Binary.is_nan_spec (Prim2SF x)) eqn:Nx.
  { destruct (Prim2SF x); try discriminate. reflexivity. }
  destruct (Binary.is_nan_spec (Prim2SF y)) eqn:Ny.
  { destruct (Prim2SF y); try discriminate. destruct (Prim2SF x); reflexivity. }
  cbn [orb].
  apply (SpecOrder.SFcompare_B2Z prec emax format_prec format_emax);
    auto using Prim2SF_valid.
Qed.

Lemma ltb_value x y :
  (x <? y)%float = true <-> nanb x = false /\ nanb y = false /\ value x < value y.
Proof.
  rewrite ltb_spec. unfold SFltb. rewrite compare_value.
  destruct (nanb x), (nanb y); cbn [orb]; try (split; [discriminate | intros (? & ? & ?); discriminate]).
  destruct (Z.compare_spec (value x) (value y)); split; intros H'; try discriminate;
    try (destruct H' as (_ & _ & ?)); auto; lia.
Qed.

Lemma leb_value x y :
  (x <=? y)%float = true <-> nanb x = false /\ nanb y = false /\ value x <= value y.
Proof.
  rewrite leb_spec. unfold SFleb. rewrite compare_value.
  destruct (nanb x), (nanb y); cbn [orb]; try (split; [discriminate | intros (? & ? & ?); discriminate]).
  destruct (Z.compare_spec (value x) (value y)); split; intros H'; try discriminate;
    try (destruct H' as (_ & _ & ?)); auto; lia.
Qed.

Lemma is_nan_nanb x : is_nan x = nanb x.
Proof.
  unfold is_nan. rewrite FloatAxioms.eqb_spec. unfold SFeqb. rewrite compare_value.
  destruct (nanb x); cbn [orb negb]; [reflexivity|].
  rewrite Z.compare_refl. reflexivity.
Qed.

Lemma ltb_false_value x y :
  (x <? y)%float = false <-> nanb x = true \/ nanb y = true \/ value y <= value x.
Proof.
  destruct (x <? y)%float eqn:E.
  - apply ltb_value in E. destruct E as (Nx & Ny & L).
    split; [discriminate|]. intros [H | [H | H]]; [congruence | congruence | lia].
  - split; [intros _ | reflexivity].
    destruct (nanb x) eqn:Nx; [auto|]. destruct (nanb y) eqn:Ny; [auto|].
    right; right. destruct (Z_lt_le_dec (value x) (value y)) as [L|]; [|assumption].
    assert (T : (x <? y)%float = true) by (apply ltb_value; auto). congruence.
Qed.

Lemma leb_false_value x y :
  (x <=? y)%float = false <-> nanb x = true \/ nanb y = true \/ value y < value x.
Proof.
  destruct (x <=? y)%float eqn:E.
  - apply leb_value in E. destruct E as (Nx & Ny & L).
    split; [discriminate|]. intros [H | [H | H]]; [congruence | congruence | lia].
  - split; [intros _ | reflexivity].
    destruct (nanb x) eqn:Nx; [auto|]. destruct (nanb y) eqn:Ny; [auto|].
    right; right. destruct (Z_lt_le_dec (value y) (value x)) as [|L]; [assumption|].
    assert (T : (x <=? y)%float = true) by (apply leb_value; auto). congruence.
Qed.

(** Rounded subtraction of a non-negative number does not go up. *)
Lemma sub_nonneg_le m d :
  (0 <=? d)%float = true ->
  nanb (m - d)%float = true
  \/ (nanb m = false /\ value (m - d)%float <= value m).
Proof.
  intros Hd. rewrite leb_spec in Hd.
  unfold nanb, value. rewrite sub_spec.
  apply (SpecOrder.SFsub_nonneg_le prec emax format_prec format_emax);
    auto using Prim2SF_valid.
Qed.

End Float64Facts.

(** * The early stopper *)

Module StopperFacts.

Import EarlyStopper StopperSpec.

Local Open Scope Z_scope.

Lemma below_not_reached (s t : float) :
  (s <? t)%float = true -> PyFloat.geb s t = false.
Proof.
  intros H. apply Float64Facts.ltb_value in H. destruct H as (Ns & Nt & L).
  unfold PyFloat.geb. apply Float64Facts.leb_false_value. right; right. lia.
Qed.

Lemma within_not_above (a b : float) :
  (a <=? b)%float = true -> (b <? a)%float = false.
Proof.
  intros H. apply Float64Facts.leb_value in H. destruct H as (Na & Nb & L).
  apply Float64Facts.ltb_false_value. right; right. lia.
Qed.

(** A score below [best - min_delta] is not above [best], whatever the
    rounding of the subtraction, as long as [min_delta] is not negative. *)
Lemma regression_not_improvement (best delta s : float) :
  (0 <=? delta)%float = true ->
  (s <? best - delta)%float = true ->
  PyFloat.gtb s best = false.
Proof.
  intros Hd H. apply Float64Facts.ltb_value in H. destruct H as (Ns & Nr & L).
  unfold PyFloat.gtb. apply Float64Facts.ltb_false_value.
  destruct (Float64Facts.sub_nonneg_le best delta Hd) as [N | [Nb Le]].
  - congruence.
  - right; right. lia.
Qed.

(** C1: below the threshold, a score above the best becomes the new best,
    resets the counter and is saved; a score below [best - min_delta] adds one
    to the counter and stops exactly when the new counter exceeds the
    patience; any other score, in particular one between [best - min_delta]
    and [best], changes nothing and neither stops nor saves. *)
Theorem early_stop_below_threshold
  (p : Z) (d : float) (c : Z) (m t s : float) :
  (s <? t)%float = true ->
  let self := mk p d c m t in
  (PyFloat.gtb s m = true ->
     early_stop self s = ((false, true), mk p d 0 s t))
  /\ (PyFloat.gtb s m = false -> (s <? m - d)%float = true ->
        early_stop self s = ((c + 1 >? p, false), mk p d (c + 1) m t))
  /\ (PyFloat.gtb s m = false -> (s <? m - d)%float = false ->
        early_stop self s = ((false, false), self))
  /\ ((m - d <=? s)%float = true -> (s <=? m)%float = true ->
        early_stop self s = ((false, false), self)).
Proof.
  intros Hst self. apply below_not_reached in Hst.
  unfold early_stop, set_best, incr_counter. subst self.
  cbn [threshold max_validation_mAP min_delta counter patience].
  rewrite Hst. repeat split.
  - intros ->. reflexivity.
  - intros -> ->. destruct (c + 1 >? p); reflexivity.
  - intros -> ->. reflexivity.
  - intros H1 H2. apply within_not_above in H1, H2.
    unfold PyFloat.gtb. rewrite H1, H2. reflexivity.
Qed.

Lemma early_stop_below_threshold_witness :
  (9 <? 95)%float = true
  /\ early_stop (mk 2 1.0 0 12 95) 9 = ((false, false), mk 2 1.0 1 12 95).
Proof.
  split; [reflexivity|].
  exact (proj1 (proj2 (early_stop_below_threshold 2 1.0 0 12 95 9 eq_refl))
               eq_refl eq_refl).
Defined.

(** C2, as the spec states it: the decisions and counters it lists are not
    the ones the code produces ([11 < 12 - 1.0] is false, so the third score
    does not count against the patience). *)
Lemma scenario_not_as_stated :
  run_counters scenario scenario_scores
  <> [((false, true), 0); ((false, true), 0); ((false, false), 1);
      ((false, false), 2); ((true, false), 3)].
Proof. vm_compute. intros H. discriminate H. Qed.

(** C2, amended: with [patience=2, min_delta=1.0, threshold=95] the scores
    [10, 12, 11, 9, 8] give the decisions [(F,T), (F,T), (F,F), (F,F), (F,F)]
    with counters [0, 0, 0, 1, 2]: no stop within the five scores, and the
    best score, the last one saved, is [12]. *)
Theorem scenario_decisions :
  run_counters scenario scenario_scores
  = [((false, true), 0); ((false, true), 0); ((false, false), 0);
     ((false, false), 1); ((false, false), 2)]
  /\ max_validation_mAP (snd (run scenario scenario_scores)) = 12%float
  /\ Forall (fun d => fst d = false) (fst (run scenario scenario_scores)).
Proof.
  split; [vm_compute; reflexivity|].
  split; [vm_compute; reflexivity|].
  vm_compute. repeat constructor.
Qed.

(** *** The patience budget *)

Lemma regression_step (self : t) (s : float) :
  (0 <=? min_delta self)%float = true ->
  (s <? max_validation_mAP self - min_delta self)%float = true ->
  (s <? threshold self)%float = true ->
  early_stop self s
  = ((counter self + 1 >? patience self, false), incr_counter self).
Proof.
  intros Hd Hr Ht. unfold early_stop.
  rewrite (below_not_reached _ _ Ht), (regression_not_improvement _ _ _ Hd Hr), Hr.
  cbn [incr_counter counter patience].
  destruct (counter self + 1 >? patience self); reflexivity.
Qed.

Lemma regressions_from (scores : list float) :
  forall self : t,
    (0 <=? min_delta self)%float = true ->
    Forall (regression self) scores ->
    fst (run self scores)
    = map (fun k => (counter self + Z.of_nat k >? patience self, false))
          (seq 1 (List.length scores))
    /\ counter (snd (run self scores)) = counter self + Z.of_nat (List.length scores)
    /\ max_validation_mAP (snd (run self scores)) = max_validation_mAP self.
Proof.
  induction scores as [| s rest IH]; intros self Hd Hall.
  - cbn. repeat split; lia.
  - inversion Hall as [| ? ? [Hr Ht] Hrest]; subst.
    cbn [run]. rewrite (regression_step self s Hd Hr Ht).
    specialize (IH (incr_counter self) Hd Hrest).
    destruct (run (incr_counter self) rest) as [ds self''].
    cbn [fst snd] in *. destruct IH as (IHd & IHc & IHm).
    cbn [incr_counter counter patience max_validation_mAP] in IHd, IHc, IHm.
    repeat split.
    + cbn [List.length seq map]. f_equal.
      rewrite IHd, <- (seq_shift (List.length rest) 1), map_map.
      apply map_ext. intros k. do 2 f_equal. lia.
    + rewrite IHc. cbn [List.length]. lia.
    + exact IHm.
Qed.

(** C3: from counter 0, a run of scores that are each below the threshold
    and below [best - min_delta] (with [min_delta >= 0] and [patience >= 0])
    gets [stop = false] on its first [patience] calls and [stop = true] on
    call [patience + 1]: the k-th call stops exactly when [k > patience],
    and never saves. *)
Theorem patience_budget (self : t) (scores : list float) :
  0 <= patience self ->
  (0 <=? min_delta self)%float = true ->
  counter self = 0 ->
  Forall (regression self) scores ->
  fst (run self scores)
  = map (fun k => (Z.of_nat k >? patience self, false)) (seq 1 (List.length scores))
  /\ (forall k, (k < List.length scores)%nat -> Z.of_nat k < patience self ->
        fst (nth k (fst (run self scores)) (true, true)) = false)
  /\ ((Z.to_nat (patience self) < List.length scores)%nat ->
        fst (nth (Z.to_nat (patience self)) (fst (run self scores)) (false, true))
        = true).
Proof.
  intros Hp Hd Hc Hall.
  destruct (regressions_from scores self Hd Hall) as (E & _ & _).
  rewrite Hc in E. cbn [Z.add] in E.
  assert (N : forall k dflt, (k < List.length scores)%nat ->
            nth k (fst (run self scores)) dflt
            = (Z.of_nat (S k) >? patience self, false)).
  { intros k dflt Hk. rewrite E.
    set (f := fun k : nat => (Z.of_nat k >? patience self, false)).
    rewrite (nth_indep _ dflt (f O))
      by (rewrite length_map, length_seq; exact Hk).
    rewrite (map_nth f), seq_nth by exact Hk. reflexivity. }
  split; [exact E|]. split.
  - intros k Hk Hlt. rewrite N by exact Hk. cbn [fst].
    rewrite Z.gtb_ltb. apply Z.ltb_ge. lia.
  - intros Hk. rewrite N by exact Hk. cbn [fst].
    rewrite Z.gtb_ltb. apply Z.ltb_lt. lia.
Qed.

Lemma patience_budget_witness :
  fst (run (mk 1 1.0 0 12 95) [9; 8]%float) = [(false, false); (true, false)].
Proof.
  refine (proj1 (patience_budget (mk 1 1.0 0 12 95) [9; 8]%float _ _ _ _)).
  - cbn. lia.
  - reflexivity.
  - reflexivity.
  - repeat constructor.
Defined.

(** *** Best-score tracking *)

(** Threshold short-circuit. *)
Lemma threshold_reached (self : t) (s : float) :
  (threshold self <=? s)%float = true ->
  early_stop self s = ((true, true), self).
Proof.
  intros H. unfold early_stop, PyFloat.geb. rewrite H. reflexivity.
Qed.

(** One call moves the best score as one step of the running maximum over
    the scores that do not reach the threshold, and keeps the threshold. *)
Lemma early_stop_best (self : t) (s : float) :
  let self' := snd (early_stop self s) in
  max_validation_mAP self'
  = running_max (max_validation_mAP self) (not_reached (threshold self) [s])
  /\ threshold self' = threshold self.
Proof.
  destruct self as [p d c m t]. cbn [threshold max_validation_mAP].
  unfold not_reached, running_max, early_stop, PyFloat.gtb. cbn [filter].
  cbn [threshold max_validation_mAP min_delta].
  destruct (PyFloat.geb s t); cbn [negb fold_left snd]; [auto|].
  destruct (m <? s)%float; [auto|].
  destruct (s <? m - d)%float; [|auto].
  cbn [incr_counter counter patience].
  destruct (c + 1 >? p); auto.
Qed.

Lemma running_max_app (start : float) (l1 l2 : list float) :
  running_max start (l1 ++ l2) = running_max (running_max start l1) l2.
Proof. unfold running_max. apply fold_left_app. Qed.

Lemma run_best (scores : list float) :
  forall self : t,
    max_validation_mAP (snd (run self scores))
    = running_max (max_validation_mAP self) (not_reached (threshold self) scores).
Proof.
  induction scores as [| s rest IH]; intros self; [reflexivity|].
  cbn [run]. destruct (early_stop_best self s) as [Hm Hth].
  destruct (early_stop self s) as [dec self'] eqn:E. cbn [snd] in Hm, Hth.
  specialize (IH self'). rewrite Hth in IH.
  destruct (run self' rest) as [ds self''] eqn:R. cbn [snd] in *.
  rewrite IH, Hm.
  change (s :: rest) with ([s] ++ rest).
  unfold not_reached. rewrite filter_app. apply eq_sym, running_max_app.
Qed.

(** For a threshold that is a number, the scores that do not reach it are
    the scores below it and NaN scores, which no maximum picks up. *)
Lemma running_max_below (t : float) (scores : list float) :
  is_nan t = false ->
  forall start,
    running_max start (not_reached t scores) = running_max start (below t scores).
Proof.
  intros Ht. rewrite Float64Facts.is_nan_nanb in Ht.
  induction scores as [| s rest IH]; intros start; [reflexivity|].
  unfold not_reached, below, PyFloat.geb in *. cbn [filter].
  destruct (t <=? s)%float eqn:Hts.
  - cbn [negb]. apply within_not_above in Hts. rewrite Hts. apply IH.
  - cbn [negb]. destruct (s <? t)%float eqn:Hst.
    + cbn [running_max fold_left]. apply IH.
    + assert (Ns : Float64.nanb s = true).
      { apply Float64Facts.ltb_false_value in Hst. apply Float64Facts.leb_false_value in Hts.
        destruct (Float64.nanb s); [reflexivity|].
        destruct Hst as [? | [? | ?]]; destruct Hts as [? | [? | ?]];
          try congruence; lia. }
      cbn [running_max fold_left].
      assert (H1 : (start <? s)%float = false)
        by (apply Float64Facts.ltb_false_value; auto).
      rewrite H1. apply IH.
Qed.

(** The running maximum is the start value or one of the scores, ... *)
Lemma running_max_in (scores : list float) :
  forall start, running_max start scores = start \/ In (running_max start scores) scores.
Proof.
  induction scores as [| s rest IH]; intros start; [left; reflexivity|].
  cbn [running_max fold_left]. fold (running_max (if (start <? s)%float then s else start) rest).
  destruct (IH (if (start <? s)%float then s else start)) as [E | I].
  - rewrite E. destruct (start <? s)%float; [right; left; reflexivity | left; reflexivity].
  - right; right. exact I.
Qed.

(** ... and no score that is a number is above it. *)
Lemma running_max_upper (scores : list float) :
  forall start,
    Float64.nanb start = false ->
    let best := running_max start scores in
    Float64.nanb best = false
    /\ (Float64.value start <= Float64.value best)
    /\ Forall (fun s => Float64.nanb s = false -> (s <=? best)%float = true) scores.
Proof.
  induction scores as [| s rest IH]; intros start Ns.
  - cbn. repeat split; [assumption | lia | constructor].
  - cbn [running_max fold_left].
    fold (running_max (if (start <? s)%float then s else start) rest).
    set (start' := if (start <? s)%float then s else start).
    assert (N' : Float64.nanb start' = false).
    { subst start'. destruct (start <? s)%float eqn:E; [|assumption].
      apply Float64Facts.ltb_value in E. tauto. }
    assert (V' : Float64.value start <= Float64.value start'
                 /\ (Float64.nanb s = false ->
                     Float64.value s <= Float64.value start')).
    { subst start'. destruct (start <? s)%float eqn:E.
      - apply Float64Facts.ltb_value in E. split; [lia | intros _; lia].
      - apply Float64Facts.ltb_false_value in E. split; [lia|].
        intros Hs. destruct E as [? | [? | ?]]; first [congruence | lia]. }
    destruct (IH start' N') as (Nb & Vb & Ub).
    cbn zeta. split; [assumption|]. split; [lia|].
    constructor; [|assumption].
    intros Hs. apply Float64Facts.leb_value.
    split; [assumption | split; [assumption|]].
    destruct V' as [_ V']. specialize (V' Hs). lia.
Qed.

(** With a NaN threshold no score is below the threshold and none reaches
    it: every score is tracked. *)
Example nan_threshold_tracks_all :
  max_validation_mAP (snd (run (init 2 1.0 nan) [10; 12]%float)) = 12%float
  /\ not_reached nan [10; 12]%float = [10; 12]%float
  /\ below nan [10; 12]%float = [].
Proof. vm_compute. repeat split. Qed.

(** C4, amended: after any sequence of calls on a fresh stopper, the best
    score is the running maximum of negative infinity and the scores that did
    not take the threshold exit (those for which [score >= threshold] is
    false): it is negative infinity or one of these scores, and none of them
    (that is a number) is above it.  For a threshold that is a number these
    scores are, up to NaN scores, the scores strictly below the threshold, and
    the best score is the maximum of negative infinity and the scores strictly
    below the threshold; for a NaN threshold it is not.  A score that reaches
    the threshold returns [(stop=true, save=true)] from any state and leaves
    the state as it is. *)
Theorem best_is_running_max (p : Z) (d t : float) (scores : list float) :
  let self' := snd (run (init p d t) scores) in
  let best := max_validation_mAP self' in
  best = running_max neg_infinity (not_reached t scores)
  /\ (best = neg_infinity \/ In best (not_reached t scores))
  /\ Forall (fun s => is_nan s = false -> (s <=? best)%float = true)
            (not_reached t scores)
  /\ (neg_infinity <=? best)%float = true
  /\ (is_nan t = false ->
      best = running_max neg_infinity (below t scores)
      /\ (best = neg_infinity \/ In best (below t scores))
      /\ Forall (fun s => (s <=? best)%float = true) (below t scores))
  /\ (forall (self : EarlyStopper.t) (s : float),
        (threshold self <=? s)%float = true ->
        early_stop self s = ((true, true), self)).
Proof.
  intros self' best.
  assert (E0 : best = running_max neg_infinity (not_reached t scores)).
  { subst best self'. rewrite run_best. reflexivity. }
  destruct (running_max_upper (not_reached t scores) neg_infinity eq_refl)
    as (Nb & Vb & Ub).
  cbn zeta in Nb, Vb, Ub. rewrite <- E0 in Nb, Vb, Ub.
  split; [exact E0|].
  split; [rewrite E0; apply running_max_in|].
  split.
  { eapply Forall_impl; [|exact Ub]. cbn beta. intros s Hs Hn.
    apply Hs. rewrite <- Float64Facts.is_nan_nanb. exact Hn. }
  split.
  { apply Float64Facts.leb_value.
    split; [reflexivity | split; [assumption | lia]]. }
  split; [|exact threshold_reached].
  intros Ht.
  assert (E : best = running_max neg_infinity (below t scores)).
  { rewrite E0. apply running_max_below. exact Ht. }
  split; [exact E|]. split; [rewrite E; apply running_max_in|].
  destruct (running_max_upper (below t scores) neg_infinity eq_refl)
    as (_ & _ & Ub').
  cbn zeta in Ub'. rewrite <- E in Ub'.
  apply Forall_forall. intros s Hs.
  rewrite Forall_forall in Ub'. apply (Ub' s Hs).
  apply filter_In in Hs. destruct Hs as [_ Hs].
  apply Float64Facts.ltb_value in Hs. tauto.
Qed.

Lemma best_is_running_max_witness :
  max_validation_mAP (snd (run (init 2 1.0 95) [10; 96; 12; 11]%float)) = 12%float
  /\ In 12%float (below 95 [10; 96; 12; 11]%float).
Proof.
  destruct (best_is_running_max 2 1.0 95 [10; 96; 12; 11]%float)
    as (_ & _ & _ & _ & H & _).
  destruct (H eq_refl) as (E & _).
  split; [exact E|]. right. left. reflexivity.
Defined.

(** C4, as the spec states it: with a NaN threshold, which [--threshold nan]
    gives, no score is strictly below the threshold, so the maximum of
    negative infinity and the scores strictly below it is negative infinity;
    the stopper's best score after [10; 12] is [12]. *)
Lemma nan_threshold_best_not_max_below :
  max_validation_mAP (snd (run (init 2 1.0 nan) [10; 12]%float))
  <> running_max neg_infinity (below nan [10; 12]%float).
Proof.
  intros H. apply (f_equal (fun x => (0 <? x)%float)) in H.
  vm_compute in H. discriminate H.
Qed.

End StopperFacts.

(** * The epoch loop *)

Module LoopFacts.

Import Main Demo.

Local Open Scope Z_scope.

Lemma append_cancel_l (a x y : string) :
  (a ++ x)%string = (a ++ y)%string -> x = y.
Proof.
  induction a as [| c a IH]; cbn; intros H; [exact H|].
  injection H as H. exact (IH H).
Qed.

Lemma last_is_not_best (a : Args.t) : Args.last_path a <> Args.best_path a.
Proof.
  unfold Args.last_path, Args.best_path, Files.path_join.
  destruct (Args.save_folder a) as [| c folder].
  - cbn. discriminate.
  - destruct (Files.ends_with_slash (String c folder)); intros H;
      apply append_cancel_l in H; cbn in H; discriminate H.
Qed.

Example last_path_demo : demo_last = "weights/last-vigat-cufed.pt"%string.
Proof. reflexivity. Qed.

Example path_join_slash :
  Files.path_join "weights/" "best-vigat-cufed.pt" = "weights/best-vigat-cufed.pt"%string.
Proof. reflexivity. Qed.

Example resume_empty_is_fresh :
  Args.resume_path (demo_args 2 30 (Some EmptyString)) = None.
Proof. reflexivity. Qed.

Lemma last_eqb_best (a : Args.t) :
  String.eqb (Args.last_path a) (Args.best_path a) = false.
Proof. apply String.eqb_neq, last_is_not_best. Qed.

Section Loop.

Variables Model Opt Sched : Type.
Variable train : bool -> Trainer Model Opt Sched -> Trainer Model Opt Sched * float.
Variable validate : Model -> float.
Variable args : Args.t.

Local Abbreviation pass_result := (Main.pass_result train).
Local Abbreviation score := (Main.score train validate).
Local Abbreviation decision := (Main.decision train validate).
Local Abbreviation config := (Main.config train).
Local Abbreviation iteration_events := (Main.iteration_events train validate args).
Local Abbreviation iteration_disk := (Main.iteration_disk train validate args).
Local Abbreviation loop_states := (Main.loop_states train validate args).
Local Abbreviation events_of := (Main.events_of train validate args).

Lemma iteration_unfold (epoch : Z) (st : State Model Opt Sched) :
  iteration train validate args epoch st
  = (fst (decision st),
     mkState (fst (pass_result st)) false
             (snd (EarlyStopper.early_stop (early_stopper st) (score st)))
             (iteration_disk epoch st)
             (trace st ++ iteration_events epoch st)).
Proof.
  unfold iteration_events, iteration_disk, config, decision, score, pass_result.
  unfold iteration, bind, call_train, call_validate, call_early_stop,
    model_config, torch_save, print, emit, set_training, ret, bind.
  destruct (train (training st) (trainer st)) as [tr train_loss].
  cbn [fst snd trainer training early_stopper disk trace model opt sched].
  destruct (EarlyStopper.early_stop (early_stopper st) (validate (model tr)))
    as [[stop save] es'].
  cbn [fst snd].
  destruct stop, save, (Args.verbose args);
    cbn [fst snd trainer training early_stopper disk trace model opt sched];
    repeat rewrite <- app_assoc; reflexivity.
Qed.

Lemma iteration_events_shape (epoch : Z) (st : State Model Opt Sched) :
  iteration_shape args epoch (fst (decision st)) (iteration_events epoch st).
Proof.
  unfold iteration_events.
  apply (@shape_intro Model Opt Sched args epoch (training st) (early_stopper st)
           (snd (EarlyStopper.early_stop (early_stopper st) (score st)))).
  - unfold decision.
    destruct (EarlyStopper.early_stop (early_stopper st) (score st)) as [[a b] es'].
    reflexivity.
  - reflexivity.
Qed.

Lemma range_len_zero (start stop : Z) :
  range_len start stop = O -> stop <= start.
Proof. unfold range_len. lia. Qed.

Lemma range_len_succ (start stop : Z) (n : nat) :
  range_len start stop = S n -> start < stop /\ range_len (start + 1) stop = n.
Proof. unfold range_len. lia. Qed.

Lemma loop_trace (fuel : nat) :
  forall epoch st,
    trace (loop train validate args fuel epoch st)
    = trace st ++ flat_map events_of (loop_states fuel epoch st).
Proof.
  induction fuel as [| fuel IH]; intros epoch st; cbn [loop loop_states flat_map].
  - rewrite app_nil_r. reflexivity.
  - rewrite iteration_unfold. destruct (fst (decision st)).
    + cbn [trace flat_map events_of fst snd]. rewrite app_nil_r. reflexivity.
    + rewrite IH. cbn [trace events_of fst snd]. rewrite app_assoc. reflexivity.
Qed.

Lemma loop_states_length (fuel : nat) :
  forall epoch st, (List.length (loop_states fuel epoch st) <= fuel)%nat
                   /\ (fuel <> O -> loop_states fuel epoch st <> []).
Proof.
  induction fuel as [| fuel IH]; intros epoch st; cbn [loop_states List.length].
  - split; [lia | congruence].
  - split; [| discriminate].
    destruct (iteration train validate args epoch st) as [[|] st'];
      cbn [List.length]; [lia|].
    destruct (IH (epoch + 1) st'). lia.
Qed.

Lemma loop_states_epochs (fuel : nat) :
  forall epoch st,
    map fst (loop_states fuel epoch st)
    = map (fun i => epoch + Z.of_nat i)
          (seq 0 (List.length (loop_states fuel epoch st))).
Proof.
  induction fuel as [| fuel IH]; intros epoch st; cbn [loop_states]; [reflexivity|].
  cbn [map List.length seq fst]. f_equal; [cbn; lia|].
  destruct (iteration train validate args epoch st) as [[|] st']; [reflexivity|].
  rewrite IH, <- seq_shift, map_map. apply map_ext. intros i. lia.
Qed.

(** Every iteration but the first starts with [model.training] false: the
    [model.eval()] of the previous validation is still in force. *)
Lemma loop_states_modes (fuel : nat) :
  forall epoch st,
    map (fun es => training (snd es)) (loop_states fuel epoch st)
    = firstn (List.length (loop_states fuel epoch st))
             (training st :: repeat false fuel).
Proof.
  induction fuel as [| fuel IH]; intros epoch st; cbn [loop_states]; [reflexivity|].
  cbn [map List.length firstn fst snd]. f_equal.
  rewrite iteration_unfold. destruct (fst (decision st)); [reflexivity|].
  rewrite IH. reflexivity.
Qed.

(** [saved_at], [train_modes] and the filters distribute over the blocks. *)
Lemma saved_at_app path (l1 l2 : list (event Model Opt Sched)) :
  saved_at path (l1 ++ l2) = saved_at path l1 ++ saved_at path l2.
Proof.
  induction l1 as [| e l1 IH]; [reflexivity|].
  destruct e; cbn [saved_at app]; try exact IH.
  destruct (String.eqb path0 path); cbn [app]; [f_equal|]; exact IH.
Qed.

Lemma train_modes_app (l1 l2 : list (event Model Opt Sched)) :
  train_modes (l1 ++ l2) = train_modes l1 ++ train_modes l2.
Proof.
  induction l1 as [| e l1 IH]; [reflexivity|].
  destruct e; cbn [train_modes app]; try exact IH. f_equal. exact IH.
Qed.

Lemma saved_last_block (epoch : Z) (st : State Model Opt Sched) :
  saved_at (Args.last_path args) (iteration_events epoch st) = [config epoch st].
Proof.
  unfold iteration_events.
  assert (E : String.eqb (Args.best_path args) (Args.last_path args) = false).
  { rewrite String.eqb_sym. apply last_eqb_best. }
  destruct (snd (decision st)), (fst (decision st)), (Args.verbose args);
    cbn [app saved_at]; rewrite ?String.eqb_refl, ?E; reflexivity.
Qed.

Lemma train_modes_block (epoch : Z) (st : State Model Opt Sched) :
  train_modes (iteration_events epoch st) = [training st].
Proof.
  unfold iteration_events.
  destruct (snd (decision st)), (fst (decision st)), (Args.verbose args);
    reflexivity.
Qed.

Lemma saved_last_blocks (l : list (Z * State Model Opt Sched)) :
  map (@epoch Model Opt Sched) (saved_at (Args.last_path args) (flat_map events_of l))
  = map (fun es => fst es + 1) l.
Proof.
  induction l as [| [e st] l IH]; [reflexivity|].
  cbn [flat_map]. change (events_of (e, st)) with (iteration_events e st).
  rewrite saved_at_app, saved_last_block.
  cbn [app map config epoch fst]. f_equal. exact IH.
Qed.

Lemma train_modes_blocks (l : list (Z * State Model Opt Sched)) :
  train_modes (flat_map events_of l) = map (fun es => training (snd es)) l.
Proof.
  induction l as [| [e st] l IH]; [reflexivity|].
  cbn [flat_map]. change (events_of (e, st)) with (iteration_events e st).
  rewrite train_modes_app, train_modes_block.
  cbn [app map snd]. f_equal. exact IH.
Qed.

Lemma loop_shape (fuel : nat) :
  forall epoch st,
    fuel = range_len epoch (Args.num_epochs args) ->
    running_shape args epoch (flat_map events_of (loop_states fuel epoch st)).
Proof.
  induction fuel as [| fuel IH]; intros epoch st Hf; symmetry in Hf.
  - apply range_len_zero in Hf. cbn. constructor. exact Hf.
  - apply range_len_succ in Hf. destruct Hf as [Hlt Hrest].
    cbn [loop_states flat_map]. rewrite iteration_unfold.
    change (events_of (epoch, st)) with (iteration_events epoch st).
    pose proof (iteration_events_shape epoch st) as Hshape.
    destruct (fst (decision st)).
    + cbn [flat_map]. rewrite app_nil_r. apply running_stopped; assumption.
    + apply running_next; [assumption | assumption |].
      apply IH. symmetry. exact Hrest.
Qed.

Lemma load_after_save (d : Files.Disk (Checkpoint Model Opt Sched)) path ck :
  Files.torch_load (Files.torch_save d path ck) path = Some ck.
Proof.
  unfold Files.torch_load, Files.torch_save, Files.close_complete, Files.write.
  rewrite String.eqb_refl. reflexivity.
Qed.

Lemma save_elsewhere (d : Files.Disk (Checkpoint Model Opt Sched)) path ck p :
  p <> path -> Files.torch_save d path ck p = d p.
Proof.
  intros Hp. apply String.eqb_neq in Hp.
  unfold Files.torch_save, Files.close_complete, Files.open_wb, Files.write.
  rewrite Hp. reflexivity.
Qed.

(** C5: the loop runs the epochs [start_epoch .. num_epochs - 1] in order
    and, in each, trains, validates, asks the stopper, writes "last", writes
    "best" exactly when the stopper said to save, and only then looks at the
    stop flag, ending the loop after an iteration that stops.  So "last"
    holds the epoch's checkpoint after every iteration, the stopping one
    included, and so does "best" after a threshold stop. *)
Theorem running_order (start : Z) (st : State Model Opt Sched) :
  (let evs :=
     flat_map events_of
              (loop_states (range_len start (Args.num_epochs args)) start st) in
   trace (loop train validate args
               (range_len start (Args.num_epochs args)) start st)
   = trace st ++ evs
   /\ running_shape args start evs)
  /\ (forall epoch st0,
        let st1 := snd (iteration train validate args epoch st0) in
        trace st1 = trace st0 ++ iteration_events epoch st0
        /\ Files.torch_load (disk st1) (Args.last_path args)
           = Some (config epoch st0)
        /\ (snd (decision st0) = true ->
              Files.torch_load (disk st1) (Args.best_path args)
              = Some (config epoch st0))
        /\ (snd (decision st0) = false ->
              disk st1 (Args.best_path args) = disk st0 (Args.best_path args))
        /\ (PyFloat.geb (score st0) (EarlyStopper.threshold (early_stopper st0)) = true ->
              fst (iteration train validate args epoch st0) = true
              /\ snd (decision st0) = true)).
Proof.
  split.
  - split; [apply loop_trace | apply loop_shape; reflexivity].
  - intros epoch st0 st1. subst st1. rewrite iteration_unfold.
    cbn [fst snd disk trace]. unfold iteration_disk.
    pose proof (last_is_not_best args) as Hne.
    split; [reflexivity|]. split; [|split; [|split]].
    + destruct (snd (decision st0)).
      * unfold Files.torch_load. rewrite save_elsewhere by exact Hne.
        apply load_after_save.
      * apply load_after_save.
    + intros ->. apply load_after_save.
    + intros ->. apply save_elsewhere. congruence.
    + intros Hreached. unfold decision, score, pass_result, EarlyStopper.early_stop.
      unfold Main.score, Main.pass_result in Hreached.
      rewrite Hreached. split; reflexivity.
Qed.


Lemma startup_state (fresh : Trainer Model Opt Sched)
  (d : Files.Disk (Checkpoint Model Opt Sched)) start (st0 : State Model Opt Sched) :
  startup args fresh d = Some (start, st0) ->
  training st0 = true
  /\ disk st0 = d
  /\ early_stopper st0 = EarlyStopper.init (Args.patience args) (Args.min_delta args)
                                           (Args.threshold args)
  /\ saved_at (Args.last_path args) (trace st0) = []
  /\ train_modes (trace st0) = []
  /\ filter is_pass (trace st0) = []
  /\ filter is_save (trace st0) = []
  /\ filter is_stop_message (trace st0) = []
  /\ match Args.resume_path args with
     | None => start = 0
     | Some path => exists data, Files.torch_load d path = Some data
                                 /\ start = epoch data
     end.
Proof.
  unfold startup. destruct (Args.resume_path args) as [path|].
  - destruct (Files.torch_load d path) as [data|]; [|discriminate].
    intros H. injection H as <- <-. cbn [training disk early_stopper trace].
    destruct (Args.verbose args); repeat split; eauto.
  - intros H. injection H as <- <-. repeat split.
Qed.


(** C10: resuming from a checkpoint whose epoch field is not below
    [num_epochs] runs no iteration: no training or validation pass, no
    checkpoint written (the disk is as it was), no stop message, and [main]
    returns normally. *)
Theorem resume_past_budget (fresh : Trainer Model Opt Sched)
  (d : Files.Disk (Checkpoint Model Opt Sched)) path data :
  Args.resume_path args = Some path ->
  Files.torch_load d path = Some data ->
  Args.num_epochs args <= epoch data ->
  exists st,
    main train validate args fresh d = Some st
    /\ filter is_pass (trace st) = []
    /\ filter is_save (trace st) = []
    /\ filter is_stop_message (trace st) = []
    /\ trace st = (if Args.verbose args then [Print (Resuming (epoch data))] else [])
    /\ disk st = d.
Proof.
  intros Hr Hl Hge. unfold main, startup. rewrite Hr, Hl.
  replace (range_len (epoch data) (Args.num_epochs args)) with O
    by (unfold range_len; lia).
  eexists. split; [reflexivity|]. cbn [loop trace disk].
  destruct (Args.verbose args); repeat split.
Qed.


Lemma firstn_repeat_false (k n : nat) :
  (k <= n)%nat -> firstn k (repeat false n) = repeat false k.
Proof.
  revert n. induction k as [| k IH]; intros n Hk; [reflexivity|].
  destruct n as [| n]; [lia|]. cbn [repeat firstn]. f_equal. apply IH. lia.
Qed.

(** The training mode seen by the passes of a run: the first one trains in
    training mode, every later one in inference mode. *)
Lemma run_train_modes (fresh : Trainer Model Opt Sched)
  (d : Files.Disk (Checkpoint Model Opt Sched)) (st : State Model Opt Sched) :
  main train validate args fresh d = Some st ->
  train_modes (trace st) = []
  \/ exists j, train_modes (trace st) = true :: repeat false j.
Proof.
  intros Hm. unfold main in Hm.
  destruct (startup args fresh d) as [[start st0]|] eqn:Hs; [|discriminate].
  injection Hm as <-.
  destruct (startup_state _ _ _ _ Hs) as (Ht & _ & _ & _ & Hmd & _).
  rewrite loop_trace, train_modes_app, Hmd. cbn [app].
  rewrite train_modes_blocks, loop_states_modes, Ht.
  pose proof (proj1 (loop_states_length (range_len start (Args.num_epochs args))
                                        start st0)) as L.
  destruct (List.length (loop_states _ start st0)) as [| k]; [left; reflexivity|].
  right. exists k. cbn [firstn]. f_equal. apply firstn_repeat_false. lia.
Qed.

(** C7, amended: a save writes in place.  [torch.save] is handed the final
    "last" or "best" path, with no temporary file and no rename; a save that
    completes leaves exactly the new checkpoint at that path and touches no
    other path; a save that is interrupted leaves the target unreadable, its
    previous content gone, and touches no other path. *)
Theorem save_in_place (d : Files.Disk (Checkpoint Model Opt Sched))
  (path : string) (ck : Checkpoint Model Opt Sched) :
  Files.torch_load (Files.torch_save d path ck) path = Some ck
  /\ (forall p, p <> path -> Files.torch_save d path ck p = d p)
  /\ Files.torch_load (Files.torch_save_interrupted d path ck) path = None
  /\ (forall p, p <> path -> Files.torch_save_interrupted d path ck p = d p)
  /\ (forall epoch st,
        disk (snd (iteration train validate args epoch st))
        = let d1 := Files.torch_save (disk st) (Args.last_path args) (config epoch st) in
          if snd (decision st)
          then Files.torch_save d1 (Args.best_path args) (config epoch st)
          else d1).
Proof.
  split; [apply load_after_save|].
  split; [intros p Hp; apply save_elsewhere; exact Hp|].
  split.
  { unfold Files.torch_load, Files.torch_save_interrupted, Files.open_wb, Files.write.
    rewrite String.eqb_refl. reflexivity. }
  split.
  { intros p Hp. apply String.eqb_neq in Hp.
    unfold Files.torch_save_interrupted, Files.open_wb, Files.write.
    rewrite Hp. reflexivity. }
  intros epoch st. rewrite iteration_unfold. reflexivity.
Qed.

End Loop.

(** C7, as the spec states it: an interrupted save does not leave the
    previous "last" checkpoint in place. *)
Lemma interrupted_save_loses_checkpoint :
  Files.torch_load
    (Files.torch_save_interrupted
       (Files.torch_save no_files demo_last (demo_checkpoint 1))
       demo_last (demo_checkpoint 2))
    demo_last
  <> Files.torch_load (Files.torch_save no_files demo_last (demo_checkpoint 1))
                      demo_last.
Proof. vm_compute. discriminate. Qed.

(** C8 on a fresh two-epoch run: the first pass trains in training mode,
    the second in the inference mode left by the first validation. *)
Theorem second_epoch_trains_in_eval_mode :
  option_map (fun st => train_modes (trace st)) (demo_main (demo_args 2 30 None) no_files)
  = Some [true; false].
Proof. vm_compute. reflexivity. Qed.



Lemma resume_past_budget_witness :
  exists st,
    demo_main (demo_args 2 30 (Some "ckpt.pt"%string)) (demo_disk 5) = Some st
    /\ filter is_pass (trace st) = []
    /\ filter is_save (trace st) = []
    /\ filter is_stop_message (trace st) = []
    /\ trace st = []
    /\ disk st = demo_disk 5.
Proof.
  exact (resume_past_budget nat unit unit demo_train demo_validate
           (demo_args 2 30 (Some "ckpt.pt"%string)) demo_fresh (demo_disk 5)
           "ckpt.pt"%string (demo_checkpoint 5) eq_refl eq_refl
           ltac:(cbn; lia)).
Defined.


End LoopFacts.

(** * More on the early stopper *)

Module StopperMore.

Import EarlyStopper StopperSpec StopperNotions.

Local Open Scope Z_scope.

Lemma nan_compares_false (s x : float) :
  is_nan s = true ->
  (s <? x)%float = false /\ (x <? s)%float = false
  /\ (s <=? x)%float = false /\ (x <=? s)%float = false.
Proof.
  intros Hs. rewrite Float64Facts.is_nan_nanb in Hs.
  repeat split;
    first [apply Float64Facts.ltb_false_value | apply Float64Facts.leb_false_value];
    auto.
Qed.

(** X1: a NaN score is ignored by the stopper: from any state it neither
    stops nor saves, and it leaves the counter and the best score as they
    are. *)
Theorem nan_score_ignored (self : t) (s : float) :
  is_nan s = true ->
  early_stop self s = ((false, false), self).
Proof.
  intros Hs. unfold early_stop, PyFloat.geb, PyFloat.gtb.
  destruct (nan_compares_false s (threshold self) Hs) as (_ & _ & _ & ->).
  destruct (nan_compares_false s (max_validation_mAP self) Hs) as (_ & -> & _).
  destruct (nan_compares_false s (max_validation_mAP self - min_delta self)%float Hs)
    as (-> & _).
  reflexivity.
Qed.

Lemma nan_score_ignored_witness :
  early_stop (mk 2 1.0 1 12 95) nan = ((false, false), mk 2 1.0 1 12 95).
Proof. exact (nan_score_ignored (mk 2 1.0 1 12 95) nan eq_refl). Defined.

(** X2: plateau neutrality.  Any run of scores that all lie between
    [best - min_delta] and [best] (and below the threshold) returns
    [(false, false)] every time and leaves the stopper exactly as it was,
    however long the run. *)
Theorem plateau_run_neutral (self : t) (scores : list float) :
  Forall (plateau self) scores ->
  run self scores = (repeat (false, false) (List.length scores), self).
Proof.
  induction scores as [| s rest IH]; intros Hall; [reflexivity|].
  inversion Hall as [| ? ? (Ht & Hlo & Hhi) Hrest]; subst.
  cbn [run]. 
  assert (E : early_stop self s = ((false, false), self)).
  { unfold early_stop, PyFloat.gtb.
    rewrite (StopperFacts.below_not_reached _ _ Ht).
    rewrite (StopperFacts.within_not_above _ _ Hhi).
    rewrite (StopperFacts.within_not_above _ _ Hlo). reflexivity. }
  rewrite E, (IH Hrest). reflexivity.
Qed.

Lemma plateau_run_neutral_witness :
  run (mk 2 1.0 1 12 95) [11; 12; 11.5]%float
  = ([(false, false); (false, false); (false, false)], mk 2 1.0 1 12 95).
Proof.
  apply (plateau_run_neutral (mk 2 1.0 1 12 95) [11; 12; 11.5]%float).
  repeat constructor.
Defined.

(** X3: with [min_delta >= 0], a score equal to the best score (below the
    threshold) changes nothing: repeating the best never counts against the
    patience and is never saved again. *)
Theorem tie_is_neutral (self : t) (s : float) :
  (0 <=? min_delta self)%float = true ->
  (s =? max_validation_mAP self)%float = true ->
  (s <? threshold self)%float = true ->
  early_stop self s = ((false, false), self).
Proof.
  intros Hd He Ht.
  rewrite FloatAxioms.eqb_spec in He. unfold SFeqb in He.
  rewrite Float64Facts.compare_value in He.
  destruct (Float64.nanb s) eqn:Ns; [discriminate|].
  destruct (Float64.nanb (max_validation_mAP self)) eqn:Nm; [discriminate|].
  cbn [orb] in He.
  destruct (Z.compare_spec (Float64.value s) (Float64.value (max_validation_mAP self)))
    as [Ev | |]; try discriminate.
  unfold early_stop, PyFloat.gtb.
  rewrite (StopperFacts.below_not_reached _ _ Ht).
  assert (H1 : (max_validation_mAP self <? s)%float = false).
  { apply Float64Facts.ltb_false_value. right; right. lia. }
  assert (H2 : (s <? max_validation_mAP self - min_delta self)%float = false).
  { apply Float64Facts.ltb_false_value.
    destruct (Float64Facts.sub_nonneg_le (max_validation_mAP self) (min_delta self) Hd)
      as [N | [_ Le]]; [auto|]. right; right. lia. }
  rewrite H1, H2. reflexivity.
Qed.

Lemma tie_is_neutral_witness :
  early_stop (mk 0 0.5 0 12 95) 12 = ((false, false), mk 0 0.5 0 12 95).
Proof.
  exact (tie_is_neutral (mk 0 0.5 0 12 95) 12 eq_refl eq_refl eq_refl).
Defined.

(** One call keeps the configuration and moves the counter by at most one,
    never below zero. *)
Lemma early_stop_keeps_configuration (self : t) (s : float) :
  let self' := snd (early_stop self s) in
  patience self' = patience self
  /\ min_delta self' = min_delta self
  /\ threshold self' = threshold self
  /\ (0 <= counter self -> 0 <= counter self' <= counter self + 1).
Proof.
  unfold early_stop.
  destruct (PyFloat.geb s (threshold self));
    [cbn; split; [|split; [|split]]; auto; lia|].
  destruct (PyFloat.gtb s (max_validation_mAP self));
    [cbn; split; [|split; [|split]]; auto; lia|].
  destruct (s <? max_validation_mAP self - min_delta self)%float;
    [|cbn; split; [|split; [|split]]; auto; lia].
  cbn [incr_counter counter patience].
  destruct (counter self + 1 >? patience self);
    cbn; (split; [|split; [|split]]); auto; lia.
Qed.

(** X4: whatever scores a stopper is fed, its patience, [min_delta] and
    threshold stay as configured, and its counter stays between 0 and the
    number of calls made (from a counter of 0). *)
Theorem run_keeps_configuration (scores : list float) :
  forall self : t,
    let self' := snd (run self scores) in
    patience self' = patience self
    /\ min_delta self' = min_delta self
    /\ threshold self' = threshold self
    /\ (0 <= counter self ->
        0 <= counter self' <= counter self + Z.of_nat (List.length scores)).
Proof.
  induction scores as [| s rest IH]; intros self; cbn zeta.
  - cbn. split; [|split; [|split]]; auto; lia.
  - cbn [run].
    pose proof (early_stop_keeps_configuration self s) as H1. cbn zeta in H1.
    destruct (early_stop self s) as [d self1]. cbn [snd] in H1.
    specialize (IH self1). cbn zeta in IH.
    destruct (run self1 rest) as [ds self2]. cbn [snd] in *.
    destruct H1 as (P1 & D1 & T1 & C1). destruct IH as (P2 & D2 & T2 & C2).
    split; [congruence | split; [congruence | split; [congruence |]]].
    intros H0. specialize (C1 H0). cbn [List.length].
    rewrite Nat2Z.inj_succ. lia.
Qed.

(** X5: a new best score restores the whole patience budget, whatever the
    counter was.  From any state, a score above the best (below the
    threshold) followed by scores that are each below that new best minus
    [min_delta] gives [(false, true)], then [stop = false] for the next
    [patience] calls and [stop = true] from call [patience + 1] on. *)
Theorem peak_then_regressions (self : t) (peak : float) (regs : list float) :
  (0 <=? min_delta self)%float = true ->
  PyFloat.gtb peak (max_validation_mAP self) = true ->
  (peak <? threshold self)%float = true ->
  Forall (fun s => (s <? peak - min_delta self)%float = true
                   /\ (s <? threshold self)%float = true) regs ->
  fst (run self (peak :: regs))
  = (false, true)
    :: map (fun k => (Z.of_nat k >? patience self, false))
           (seq 1 (List.length regs))
  /\ max_validation_mAP (snd (run self (peak :: regs))) = peak.
Proof.
  intros Hd Hg Ht Hall. cbn [run].
  assert (E : early_stop self peak = ((false, true), set_best self peak)).
  { unfold early_stop. rewrite (StopperFacts.below_not_reached _ _ Ht), Hg.
    reflexivity. }
  rewrite E.
  destruct (StopperFacts.regressions_from regs (set_best self peak) Hd Hall)
    as (R1 & _ & R3).
  destruct (run (set_best self peak) regs) as [ds self']. cbn [fst snd] in *.
  split; [|exact R3]. f_equal. rewrite R1. reflexivity.
Qed.

Lemma peak_then_regressions_witness :
  fst (run (mk 1 1.0 7 10 95) [12; 9; 8]%float)
  = [(false, true); (false, false); (true, false)].
Proof.
  refine (proj1 (peak_then_regressions (mk 1 1.0 7 10 95) 12 [9; 8]%float
                   eq_refl eq_refl eq_refl _)).
  repeat constructor.
Defined.

End StopperMore.

(** * More on the epoch loop *)

Module LoopMore.

Import Main Demo.

Local Open Scope Z_scope.

Section Loop.

Variables Model Opt Sched : Type.
Variable train : bool -> Trainer Model Opt Sched -> Trainer Model Opt Sched * float.
Variable validate : Model -> float.
Variable args : Args.t.

Local Abbreviation pass_result := (Main.pass_result train).
Local Abbreviation score := (Main.score train validate).
Local Abbreviation decision := (Main.decision train validate).
Local Abbreviation config := (Main.config train).
Local Abbreviation iteration_events := (Main.iteration_events train validate args).
Local Abbreviation iteration_disk := (Main.iteration_disk train validate args).
Local Abbreviation loop_states := (Main.loop_states train validate args).
Local Abbreviation events_of := (Main.events_of train validate args).
Local Abbreviation iteration := (Main.iteration train validate args).
Local Abbreviation loop := (Main.loop train validate args).
Local Abbreviation main := (Main.main train validate args).

Local Abbreviation State := (Main.State Model Opt Sched).
Local Abbreviation Disk := (Files.Disk (Checkpoint Model Opt Sched)).

Lemma last_nonempty {A : Type} (l : list A) (d d' : A) :
  l <> [] -> last l d = last l d'.
Proof.
  induction l as [| x l IH]; intros Hne; [congruence|].
  destruct l as [| y l]; [reflexivity|].
  change (last (y :: l) d = last (y :: l) d'). apply IH. discriminate.
Qed.

Lemma last_app_nonempty {A : Type} (l1 l2 : list A) (d : A) :
  l2 <> [] -> last (l1 ++ l2) d = last l2 d.
Proof.
  intros Hne. induction l1 as [| x l1 IH]; [reflexivity|].
  cbn [app]. destruct (l1 ++ l2) as [| y l] eqn:E.
  - destruct l1; [cbn in E; congruence | discriminate E].
  - exact IH.
Qed.

(** The state the loop ends in is the one its last iteration leaves. *)
Lemma loop_final (fuel : nat) :
  forall epoch (st : State),
    loop_states fuel epoch st <> [] ->
    loop fuel epoch st
    = snd (iteration (fst (last (loop_states fuel epoch st) (epoch, st)))
                     (snd (last (loop_states fuel epoch st) (epoch, st)))).
Proof.
  induction fuel as [| fuel IH]; intros epoch st Hne;
    [exfalso; apply Hne; reflexivity|].
  cbn [Main.loop Main.loop_states] in *.
  destruct (Main.iteration train validate args epoch st) as [broke st'] eqn:E.
  destruct broke.
  - cbn [last fst snd]. rewrite E. reflexivity.
  - destruct fuel as [| fuel'].
    + cbn [Main.loop Main.loop_states last fst snd]. rewrite E. reflexivity.
    + assert (Hne' : loop_states (S fuel') (epoch + 1) st' <> [])
        by (cbn [Main.loop_states]; discriminate).
      rewrite (IH (epoch + 1) st' Hne').
      set (ls := Main.loop_states train validate args (S fuel') (epoch + 1) st') in *.
      destruct ls as [| x ls'] eqn:Els; [congruence|].
      change (last ((epoch, st) :: x :: ls') (epoch, st))
        with (last (x :: ls') (epoch, st)).
      rewrite (last_nonempty (x :: ls') (epoch + 1, st') (epoch, st))
        by discriminate.
      reflexivity.
Qed.

Lemma iteration_disk_elsewhere (epoch : Z) (st : State) (p : string) :
  p <> Args.last_path args -> p <> Args.best_path args ->
  iteration_disk epoch st p = disk st p.
Proof.
  intros Hl Hb. unfold Main.iteration_disk.
  destruct (snd (decision st));
    rewrite ?LoopFacts.save_elsewhere by assumption; reflexivity.
Qed.

Lemma loop_disk_elsewhere (fuel : nat) (p : string) :
  p <> Args.last_path args -> p <> Args.best_path args ->
  forall epoch (st : State), disk (loop fuel epoch st) p = disk st p.
Proof.
  intros Hl Hb. induction fuel as [| fuel IH]; intros epoch st; [reflexivity|].
  cbn [Main.loop]. rewrite LoopFacts.iteration_unfold.
  destruct (fst (decision st)); [|rewrite IH]; cbn [disk];
    apply iteration_disk_elsewhere; assumption.
Qed.

Lemma stop_messages_app (l1 l2 : list (event Model Opt Sched)) :
  filter is_stop_message (l1 ++ l2)
  = filter is_stop_message l1 ++ filter is_stop_message l2.
Proof. apply filter_app. Qed.

Lemma stop_messages_block (epoch : Z) (st : State) :
  filter is_stop_message (iteration_events epoch st)
  = if fst (decision st) then [Print (StopAt (epoch + 1))] else [].
Proof.
  unfold Main.iteration_events.
  destruct (snd (decision st)), (fst (decision st)), (Args.verbose args);
    reflexivity.
Qed.

Lemma last_of_block (epoch : Z) (st : State) d :
  fst (decision st) = true ->
  last (iteration_events epoch st) d = Print (StopAt (epoch + 1)).
Proof.
  intros H. unfold Main.iteration_events. rewrite H.
  destruct (snd (decision st)); reflexivity.
Qed.

(** How the loop ends: it uses up its epochs without a stop message, or its
    last iteration stops and the stop message is the last thing it does. *)
Lemma loop_ending (fuel : nat) :
  forall epoch (st : State),
    let ls := loop_states fuel epoch st in
    let evs := flat_map events_of ls in
    (filter is_stop_message evs = [] /\ List.length ls = fuel)
    \/ (ls <> []
        /\ filter is_stop_message evs
           = [Print (StopAt (epoch + Z.of_nat (List.length ls)))]
        /\ forall d, last evs d = Print (StopAt (epoch + Z.of_nat (List.length ls)))).
Proof.
  induction fuel as [| fuel IH]; intros epoch st; cbn zeta.
  - left. split; reflexivity.
  - cbn [Main.loop_states]. rewrite LoopFacts.iteration_unfold.
    cbn [flat_map].
    change (events_of (epoch, st)) with (iteration_events epoch st).
    destruct (fst (decision st)) eqn:D.
    + right. cbn [flat_map List.length]. rewrite app_nil_r.
      split; [discriminate|]. rewrite stop_messages_block, D.
      split; [do 3 f_equal; lia|].
      intros d. rewrite (last_of_block epoch st d D). do 2 f_equal; lia.
    + set (st' := mkState _ _ _ _ _).
      specialize (IH (epoch + 1) st'). cbn zeta in IH.
      rewrite stop_messages_app, stop_messages_block, D. cbn [app List.length].
      destruct IH as [[H1 H2] | (Hne & H1 & H2)].
      * left. split; [exact H1 | f_equal; exact H2].
      * right. split; [discriminate|].
        rewrite H1. split; [do 3 f_equal; lia|].
        intros d.
        assert (Hevs : flat_map events_of (loop_states fuel (epoch + 1) st') <> []).
        { intros E. specialize (H2 d). rewrite E in H1. discriminate H1. }
        rewrite last_app_nonempty by exact Hevs.
        rewrite H2. do 2 f_equal; lia.
Qed.

Lemma last_state_epoch (fuel : nat) :
  forall epoch (st : State) d,
    loop_states fuel epoch st <> [] ->
    fst (last (loop_states fuel epoch st) d)
    = epoch + Z.of_nat (List.length (loop_states fuel epoch st)) - 1.
Proof.
  induction fuel as [| fuel IH]; intros epoch st d Hne;
    [exfalso; apply Hne; reflexivity|].
  cbn [Main.loop_states] in *.
  destruct (Main.iteration train validate args epoch st) as [[|] st'].
  - cbn. lia.
  - destruct (Main.loop_states train validate args fuel (epoch + 1) st')
      as [| x ls'] eqn:E.
    + cbn. lia.
    + change (last ((epoch, st) :: x :: ls') d) with (last (x :: ls') d).
      rewrite <- E. rewrite IH by (rewrite E; discriminate).
      rewrite E. cbn [List.length]. lia.
Qed.

Lemma iteration_leaves_last (epoch : Z) (st : State) :
  Files.torch_load (iteration_disk epoch st) (Args.last_path args)
  = Some (config epoch st).
Proof.
  unfold Main.iteration_disk. destruct (snd (decision st)).
  - unfold Files.torch_load.
    rewrite LoopFacts.save_elsewhere by apply LoopFacts.last_is_not_best.
    apply LoopFacts.load_after_save.
  - apply LoopFacts.load_after_save.
Qed.

(** What a run that made at least one iteration leaves behind: the "last"
    file holds the checkpoint of the last iteration, whose state
    dictionaries are those of the final trainer. *)
Lemma loop_leaves_last (fuel : nat) (epoch : Z) (st : State) :
  loop_states fuel epoch st <> [] ->
  exists ck,
    Files.torch_load (disk (loop fuel epoch st)) (Args.last_path args) = Some ck
    /\ Main.epoch ck = epoch + Z.of_nat (List.length (loop_states fuel epoch st))
    /\ mkTrainer (model_state_dict ck) (opt_state_dict ck) (sched_state_dict ck)
       = trainer (loop fuel epoch st).
Proof.
  intros Hne. rewrite (loop_final fuel epoch st Hne).
  pose proof (last_state_epoch fuel epoch st (epoch, st) Hne) as He.
  destruct (last (loop_states fuel epoch st) (epoch, st)) as [e_l st_l].
  cbn [fst snd] in *. rewrite LoopFacts.iteration_unfold. cbn [snd disk trainer].
  exists (config e_l st_l). split; [apply iteration_leaves_last|].
  split; [cbn [Main.config Main.epoch]; lia|].
  cbn [Main.config model_state_dict opt_state_dict sched_state_dict].
  destruct (fst (pass_result st_l)); reflexivity.
Qed.

Lemma run_decomposition (fresh : Trainer Model Opt Sched) (d : Disk) (st : State) :
  main fresh d = Some st ->
  exists start st0,
    startup args fresh d = Some (start, st0)
    /\ st = loop (range_len start (Args.num_epochs args)) start st0
    /\ let ls := loop_states (range_len start (Args.num_epochs args)) start st0 in
       train_modes (trace st) = map (fun es => training (snd es)) ls
       /\ map (@Main.epoch Model Opt Sched)
              (saved_at (Args.last_path args) (trace st))
          = map (fun i => start + Z.of_nat i) (seq 1 (List.length ls))
       /\ filter is_stop_message (trace st)
          = filter is_stop_message (flat_map events_of ls)
       /\ (flat_map events_of ls <> [] ->
           forall dflt, last (trace st) dflt = last (flat_map events_of ls) dflt).
Proof.
  intros Hm. unfold Main.main in Hm.
  destruct (startup args fresh d) as [[start st0]|] eqn:Hs; [|discriminate].
  injection Hm as <-. exists start, st0.
  split; [reflexivity|]. split; [reflexivity|]. cbn zeta.
  pose proof Hs as Hs'. apply LoopFacts.startup_state in Hs'.
  destruct Hs' as (_ & _ & _ & Hsv & Hmd & _ & _ & Hst & _).
  rewrite LoopFacts.loop_trace.
  rewrite LoopFacts.train_modes_app, LoopFacts.saved_at_app, stop_messages_app.
  rewrite Hsv, Hmd, Hst. cbn [app].
  split; [apply LoopFacts.train_modes_blocks|]. split.
  - rewrite LoopFacts.saved_last_blocks.
    rewrite <- (map_map fst (fun e => e + 1)), LoopFacts.loop_states_epochs, map_map.
    rewrite <- seq_shift, map_map. apply map_ext. intros i. lia.
  - split; [reflexivity|]. intros Hne dflt. apply last_app_nonempty. exact Hne.
Qed.

Lemma last_of_range (start : Z) (n : nat) (dflt : Z) :
  last (map (fun i => start + Z.of_nat i) (seq 1 (S n))) dflt
  = start + Z.of_nat (S n).
Proof.
  rewrite seq_S, map_app. cbn [map].
  rewrite last_app_nonempty by discriminate. reflexivity.
Qed.

(** A run of [Main] that prints no stop message made
    [num_epochs - start_epoch] iterations, and (when that is at least one)
    the "last" file it leaves holds a checkpoint with epoch field
    [num_epochs]. *)
Lemma full_budget_run (fresh : Trainer Model Opt Sched) (d : Disk)
  (start : Z) (st0 st : State) :
  startup args fresh d = Some (start, st0) ->
  main fresh d = Some st ->
  filter is_stop_message (trace st) = [] ->
  List.length (train_modes (trace st)) = range_len start (Args.num_epochs args)
  /\ (start < Args.num_epochs args ->
      exists ck,
        Files.torch_load (disk st) (Args.last_path args) = Some ck
        /\ Main.epoch ck = Args.num_epochs args).
Proof.
  intros Hs Hm Hno.
  destruct (run_decomposition fresh d st Hm) as (start' & st0' & Hs' & -> & R).
  rewrite Hs in Hs'. injection Hs' as <- <-. cbn zeta in R.
  destruct R as (Rm & _ & Rs & _). rewrite Rs in Hno.
  destruct (loop_ending (range_len start (Args.num_epochs args)) start st0)
    as [[_ Hlen] | (_ & H1 & _)]; [|cbn zeta in H1; congruence].
  cbn zeta in Hlen. rewrite Rm, length_map, Hlen.
  split; [reflexivity|]. intros Hlt.
  assert (Hne : loop_states (range_len start (Args.num_epochs args)) start st0 <> []).
  { intros E. rewrite E in Hlen. cbn in Hlen. unfold range_len in Hlen. lia. }
  destruct (loop_leaves_last _ _ _ Hne) as (ck & Hl & He & _).
  exists ck. split; [exact Hl|]. rewrite He, Hlen. unfold range_len. lia.
Qed.

(** X8: a run prints at most one stop message; when it prints one, it is the
    last thing the run does, and the epoch it names is the epoch field of the
    last checkpoint written. *)
Theorem stop_message_is_last (fresh : Trainer Model Opt Sched) (d : Disk)
  (st : State) :
  main fresh d = Some st ->
  filter is_stop_message (trace st) = []
  \/ exists k,
       filter is_stop_message (trace st) = [Print (StopAt k)]
       /\ (forall dflt, last (trace st) dflt = Print (StopAt k))
       /\ last (map (@Main.epoch Model Opt Sched)
                    (saved_at (Args.last_path args) (trace st))) 0 = k.
Proof.
  intros Hm.
  destruct (run_decomposition fresh d st Hm) as (start & st0 & Hs & -> & R).
  cbn zeta in R. destruct R as (_ & Re & Rs & Rl).
  destruct (loop_ending (range_len start (Args.num_epochs args)) start st0)
    as [[H1 _] | (Hne & H1 & H2)]; cbn zeta in *.
  - left. rewrite Rs. exact H1.
  - right. eexists. rewrite Rs, H1. split; [reflexivity|]. split.
    + intros dflt. rewrite Rl; [apply H2|].
      intros E. rewrite E in H1. discriminate H1.
    + rewrite Re.
      destruct (List.length (loop_states _ start st0)) as [| n] eqn:L.
      * destruct (loop_states _ start st0); [congruence | discriminate L].
      * apply last_of_range.
Qed.



(** X11: [model.train()] is called once, before the loop, and [validate]
    leaves the model in inference mode.  So in every run, fresh or resumed
    and of any length, the first training pass runs in training mode and
    every later one in inference mode. *)
Theorem only_first_pass_trains (fresh : Trainer Model Opt Sched) (d : Disk)
  (st : State) :
  main fresh d = Some st ->
  train_modes (trace st) = []
  \/ exists j, train_modes (trace st) = true :: repeat false j.
Proof.
  intros Hm. exact (LoopFacts.run_train_modes _ _ _ _ _ _ fresh d st Hm).
Qed.

End Loop.

Lemma stop_message_is_last_witness :
  exists st,
    demo_main (demo_args 5 0 None) no_files = Some st
    /\ (filter is_stop_message (trace st) = []
        \/ exists k,
             filter is_stop_message (trace st) = [Print (StopAt k)]
             /\ (forall dflt, last (trace st) dflt = Print (StopAt k))
             /\ last (map (@epoch nat unit unit) (saved_at demo_last (trace st))) 0
                = k).
Proof.
  eexists. split; [reflexivity|].
  exact (stop_message_is_last nat unit unit demo_train demo_validate
           (demo_args 5 0 None) demo_fresh no_files _ eq_refl).
Defined.



Lemma only_first_pass_trains_witness :
  exists st,
    demo_main (demo_args 2 30 None) no_files = Some st
    /\ (train_modes (trace st) = []
        \/ exists j, train_modes (trace st) = true :: repeat false j).
Proof.
  eexists. split; [reflexivity|].
  exact (only_first_pass_trains nat unit unit demo_train demo_validate
           (demo_args 2 30 None) demo_fresh no_files _ eq_refl).
Defined.

End LoopMore.

(** * The training pass *)

Module TrainFacts.

Import TrainPass.

Lemma add_nan (x y : float) :
  is_nan x = true \/ is_nan y = true -> is_nan (x + y)%float = true.
Proof.
  rewrite !Float64Facts.is_nan_nanb. unfold Float64.nanb.
  rewrite add_spec. unfold SF64add.
  intros [H | H].
  - destruct (Prim2SF x); try discriminate. reflexivity.
  - destruct (Prim2SF y); try discriminate. destruct (Prim2SF x); reflexivity.
Qed.

Lemma div_nan (x y : float) :
  is_nan x = true -> is_nan (x / y)%float = true.
Proof.
  rewrite !Float64Facts.is_nan_nanb. unfold Float64.nanb.
  rewrite div_spec. unfold SF64div.
  intros H. destruct (Prim2SF x); try discriminate. reflexivity.
Qed.

Lemma sum_nan (ls : list float) :
  forall acc,
    is_nan acc = true \/ Exists (fun l => is_nan l = true) ls ->
    is_nan (fold_left PrimFloat.add ls acc) = true.
Proof.
  induction ls as [| l ls IH]; intros acc [H | H]; cbn [fold_left].
  - exact H.
  - inversion H.
  - apply IH. left. apply add_nan. left. exact H.
  - apply IH. inversion H as [? ? Hl | ? ? Hls]; subst.
    + left. apply add_nan. right. exact Hl.
    + right. exact Hls.
Qed.

Section Torch.

Variables World Batch Output Loss : Type.
Variable zero_grad : World -> World.
Variable forward : bool -> World -> Batch -> World * Output.
Variable crit : Output -> Batch -> Loss.
Variable backward : World -> Loss -> World.
Variable opt_step : World -> World.
Variable item : Loss -> float.
Variable sched_step : World -> World.

Local Abbreviation batches :=
  (TrainPass.batches zero_grad forward crit backward opt_step item).
Local Abbreviation train :=
  (TrainPass.train zero_grad forward crit backward opt_step item sched_step).
Local Abbreviation losses :=
  (TrainPass.losses zero_grad forward crit backward opt_step item).

Lemma batches_spec (training : bool) (loader : list Batch) :
  forall w log acc,
    snd (fst (batches training w log acc loader))
    = log ++ flat_map (fun b => [ZeroGrad; Forward b; Criterion; Backward; OptStep])
                      loader
    /\ snd (batches training w log acc loader)
       = fold_left PrimFloat.add (losses training w loader) acc.
Proof.
  induction loader as [| b rest IH]; intros w log acc.
  - cbn. rewrite app_nil_r. split; reflexivity.
  - cbn [TrainPass.batches TrainPass.losses flat_map].
    unfold TrainPass.batch_body.
    destruct (forward training (zero_grad w) b) as [w1 out].
    destruct (IH (opt_step (backward w1 (crit out b)))
                 (log ++ [ZeroGrad; Forward b; Criterion; Backward; OptStep])
                 (acc + item (crit out b))%float) as [H1 H2].
    rewrite H1, H2, <- app_assoc. split; reflexivity.
Qed.

(** X12: a pass makes, for every batch in loader order, the calls
    [zero_grad], forward, criterion, [backward] and [opt.step()], and after
    the last batch exactly one [sched.step()]: one optimizer step per batch
    and one scheduler step per epoch.  It returns a loss exactly when the
    loader is not empty; with an empty loader it still steps the scheduler
    and then raises [ZeroDivisionError]. *)
Theorem train_calls (training : bool) (w : World) (loader : list Batch) :
  snd (fst (train training w loader))
  = flat_map (fun b => [ZeroGrad; Forward b; Criterion; Backward; OptStep]) loader
    ++ [SchedStep]
  /\ (snd (train training w loader) = None <-> loader = [])
  /\ List.length (filter (fun c => match c with OptStep => true | _ => false end)
                         (snd (fst (train training w loader))))
     = List.length loader.
Proof.
  unfold TrainPass.train.
  destruct (batches_spec training loader w [] 0%float) as [H1 _].
  destruct (batches training w [] 0%float loader) as [[w' log] acc].
  cbn [fst snd] in *. subst log. cbn [app].
  split; [reflexivity|]. split.
  - destruct loader; split; intros H; try reflexivity; discriminate.
  - rewrite filter_app. cbn [filter]. rewrite app_nil_r.
    clear. induction loader as [| b rest IH]; [reflexivity|].
    cbn [flat_map app filter List.length]. rewrite IH. reflexivity.
Qed.

(** X13: a NaN loss is not detected.  If [loss.item()] is NaN for some batch
    of the pass, the pass runs to its end as usual and the mean loss it
    returns is NaN. *)
Theorem train_nan_loss (training : bool) (w : World) (loader : list Batch) :
  Exists (fun l => is_nan l = true) (losses training w loader) ->
  exists r,
    snd (train training w loader) = Some r /\ is_nan r = true.
Proof.
  intros Hex. unfold TrainPass.train.
  destruct (batches_spec training loader w [] 0%float) as [_ H2].
  destruct (batches training w [] 0%float loader) as [[w' log] acc].
  cbn [fst snd] in *. subst acc.
  destruct loader as [| b rest]; [inversion Hex|].
  eexists. split; [reflexivity|].
  apply div_nan. apply sum_nan. right. exact Hex.
Qed.

End Torch.

Lemma train_nan_loss_witness :
  exists r,
    snd (TrainPass.train (fun w : nat => w) (fun _ w (b : float) => (w, b))
                         (fun out _ => out) (fun w _ => w) S (fun l : float => l)
                         (fun w => w) true O [0.5; nan; 0.25]%float)
    = Some r
    /\ is_nan r = true.
Proof.
  apply (train_nan_loss nat float float float).
  right. left. reflexivity.
Defined.

End TrainFacts.

(** * The validation pass *)

Module ValidateFacts.

Import ValidatePass.

Lemma skipn_repeat_rows {X : Type} (x : X) (k m : nat) :
  skipn k (repeat x m) = repeat x (m - k).
Proof.
  revert m. induction k as [| k IH]; intros m.
  - rewrite Nat.sub_0_r. reflexivity.
  - destruct m as [| m]; [reflexivity|]. cbn [repeat skipn Nat.sub]. apply IH.
Qed.

Section Numpy.

Variable A : Type.
Variable zero : A.

Lemma total_rows_cons (out : tensor A) (rest : list (tensor A)) :
  total_rows (out :: rest) = List.length (rows out) + total_rows rest.
Proof. reflexivity. Qed.

(** A batch output that fits: the rows are written where [gidx] points. *)
Lemma assign_fitting (c : nat) (scores : list (list A)) (gidx : nat)
  (out : tensor A) :
  width out = c ->
  gidx + List.length (rows out) <= List.length scores ->
  assign_slice zero c scores gidx out
  = Some (firstn gidx scores ++ rows out
          ++ skipn (gidx + List.length (rows out)) scores).
Proof.
  intros Hw Hfit. unfold assign_slice, broadcast_cols.
  rewrite Hw, Nat.eqb_refl.
  rewrite (Nat.min_l gidx) by lia.
  rewrite (Nat.min_l (gidx + _)) by lia.
  replace (gidx + List.length (rows out) - gidx) with (List.length (rows out)) by lia.
  rewrite Nat.eqb_refl. reflexivity.
Qed.

(** A successful assignment keeps the number of rows. *)
Lemma assign_keeps_length (c : nat) (scores : list (list A)) (gidx : nat)
  (out : tensor A) (scores' : list (list A)) :
  assign_slice zero c scores gidx out = Some scores' ->
  List.length scores' = List.length scores.
Proof.
  unfold assign_slice.
  destruct (broadcast_cols zero c out) as [value|]; [|discriminate].
  set (n := List.length scores).
  set (start := Nat.min gidx n).
  set (stop := Nat.min (gidx + List.length (rows out)) n).
  assert (Hs : start <= stop <= n) by (subst start stop; lia).
  destruct (Nat.eqb (List.length value) (stop - start)) eqn:E.
  - apply Nat.eqb_eq in E. intros H. injection H as <-.
    rewrite !length_app, length_firstn, length_skipn, E. fold n. lia.
  - destruct value as [| r [| r' value]]; try discriminate.
    intros H. injection H as <-.
    rewrite !length_app, length_firstn, length_skipn, repeat_length. fold n. lia.
Qed.

Lemma fill_from (c : nat) (outs : list (tensor A)) :
  forall (filled : list (list A)) (m : nat),
    Forall (fun out => width out = c) outs ->
    total_rows outs <= m ->
    fill zero c (filled ++ zeros zero m c) (List.length filled) outs
    = Some (filled ++ List.concat (map rows outs)
            ++ zeros zero (m - total_rows outs) c).
Proof.
  induction outs as [| out rest IH]; intros filled m Hw Hfit.
  - cbn. rewrite Nat.sub_0_r. reflexivity.
  - inversion Hw as [| ? ? Hw1 Hwr]; subst.
    rewrite total_rows_cons in Hfit. cbn [fill].
    rewrite assign_fitting;
      [| reflexivity | rewrite length_app; unfold zeros; rewrite repeat_length; lia].
    rewrite firstn_app, firstn_all, Nat.sub_diag. cbn [firstn]. rewrite app_nil_r.
    rewrite skipn_app.
    rewrite (skipn_all2 filled) by lia.
    replace (List.length filled + List.length (rows out) - List.length filled)
      with (List.length (rows out)) by lia.
    unfold zeros at 1. rewrite skipn_repeat_rows. fold (zeros zero (m - List.length (rows out)) (width out)).
    cbn [app].
    replace (filled ++ rows out ++ zeros zero (m - List.length (rows out)) (width out))
      with ((filled ++ rows out) ++ zeros zero (m - List.length (rows out)) (width out))
      by (rewrite <- app_assoc; reflexivity).
    replace (List.length filled + List.length (rows out))
      with (List.length (filled ++ rows out)) by (rewrite length_app; reflexivity).
    rewrite IH by (try assumption; lia).
    rewrite total_rows_cons. cbn [map List.concat]. rewrite <- !app_assoc.
    replace (m - List.length (rows out) - total_rows rest)
      with (m - (List.length (rows out) + total_rows rest)) by lia.
    reflexivity.
Qed.

Variables Model Batch : Type.
Variable predict : Model -> Batch -> tensor A.
Variable map_macro : list (list A) -> float.

(** X14: row alignment.  When every batch output has [num_class] columns
    and the outputs hold no more rows than the dataset has samples, the
    matrix handed to the metric is the batch outputs one after the other, in
    loader order, followed by rows of zeros for the samples no batch covered;
    when the rows add up to the dataset size it is exactly the outputs in
    order. *)
Theorem validate_row_alignment (n num_class : nat) (m : Model)
  (loader : list Batch) :
  let outs := map (predict m) loader in
  Forall (fun out => width out = num_class) outs ->
  total_rows outs <= n ->
  validate zero predict map_macro n num_class m loader
  = Some (map_macro (List.concat (map rows outs)
                     ++ zeros zero (n - total_rows outs) num_class))
  /\ (total_rows outs = n ->
      validate zero predict map_macro n num_class m loader
      = Some (map_macro (List.concat (map rows outs)))).
Proof.
  intros outs Hw Hfit. unfold validate. fold outs.
  pose proof (fill_from num_class outs [] n Hw Hfit) as H.
  cbn [app List.length] in H. rewrite H.
  split; [reflexivity|].
  intros E. rewrite E, Nat.sub_diag. cbn [zeros repeat]. rewrite app_nil_r.
  reflexivity.
Qed.

Lemma fill_overflow (c : nat) (outs : list (tensor A)) :
  forall (scores : list (list A)) (gidx : nat),
    Forall (fun out => width out = c) outs ->
    Forall (fun out => 2 <= List.length (rows out)) outs ->
    gidx <= List.length scores ->
    List.length scores < gidx + total_rows outs ->
    fill zero c scores gidx outs = None.
Proof.
  induction outs as [| out rest IH]; intros scores gidx Hw H2 Hg Hover.
  - unfold total_rows in Hover. cbn in Hover. lia.
  - inversion Hw as [| ? ? Hw1 Hwr]; subst.
    inversion H2 as [| ? ? Hk Hkr]; subst.
    rewrite total_rows_cons in Hover. cbn [fill].
    destruct (le_lt_dec (gidx + List.length (rows out)) (List.length scores))
      as [Hfit | Hno].
    + rewrite assign_fitting by (try reflexivity; lia).
      apply IH; try assumption;
        rewrite !length_app, length_firstn, length_skipn; lia.
    + unfold assign_slice, broadcast_cols. rewrite Nat.eqb_refl.
      rewrite (Nat.min_r (gidx + _)) by lia.
      assert (E : Nat.eqb (List.length (rows out))
                          (List.length scores - Nat.min gidx (List.length scores))
                  = false) by (apply Nat.eqb_neq; lia).
      rewrite E.
      destruct (rows out) as [| r [| r' rs]]; cbn in Hk; try lia; reflexivity.
Qed.

(** X15: too many rows are an error.  When every batch output has
    [num_class] columns and at least two rows, and together they hold more
    rows than the dataset has samples, the assignment of the batch that
    crosses the end raises ([ValueError]) and [validate] returns nothing. *)
Theorem validate_overflow (n num_class : nat) (m : Model) (loader : list Batch) :
  let outs := map (predict m) loader in
  Forall (fun out => width out = num_class) outs ->
  Forall (fun out => 2 <= List.length (rows out)) outs ->
  n < total_rows outs ->
  validate zero predict map_macro n num_class m loader = None.
Proof.
  intros outs Hw H2 Hover. unfold validate. fold outs.
  rewrite (fill_overflow num_class outs (zeros zero n num_class) 0 Hw H2);
    [reflexivity | lia |].
  unfold zeros. rewrite repeat_length. lia.
Qed.

Lemma fill_keeps_length (c : nat) (outs : list (tensor A)) :
  forall scores gidx scores',
    fill zero c scores gidx outs = Some scores' ->
    List.length scores' = List.length scores.
Proof.
  induction outs as [| out rest IH]; intros scores gidx scores' H; cbn [fill] in H.
  - injection H as <-. reflexivity.
  - destruct (assign_slice zero c scores gidx out) as [s1|] eqn:E; [|discriminate].
    rewrite (IH _ _ _ H). eapply assign_keeps_length. exact E.
Qed.

(** X16: whenever [validate] returns a score, the matrix it handed to the
    metric has exactly one row per sample of the dataset, whatever the
    shapes of the batch outputs were. *)
Theorem validate_matrix_rows (n num_class : nat) (m : Model)
  (loader : list Batch) (r : float) :
  validate zero predict map_macro n num_class m loader = Some r ->
  exists scores,
    fill zero num_class (zeros zero n num_class) 0 (map (predict m) loader)
    = Some scores
    /\ r = map_macro scores
    /\ List.length scores = n.
Proof.
  unfold validate.
  destruct (fill zero num_class (zeros zero n num_class) 0 (map (predict m) loader))
    as [scores|] eqn:E; [|discriminate].
  intros H. injection H as <-. exists scores.
  split; [reflexivity|]. split; [reflexivity|].
  rewrite (fill_keeps_length _ _ _ _ _ E). unfold zeros. apply repeat_length.
Qed.

End Numpy.

Lemma validate_row_alignment_witness :
  validate 0 (fun (_ : unit) (b : list (list nat)) => mkTensor 2 b)
           (fun s => TrainPass.float_of_nat (List.length s)) 3 2 tt
           [[[1; 2]; [3; 4]]; [[5; 6]]]
  = Some (TrainPass.float_of_nat 3)
  /\ validate 0 (fun (_ : unit) (b : list (list nat)) => mkTensor 2 b)
              (fun s => TrainPass.float_of_nat (List.length s)) 5 2 tt
              [[[1; 2]; [3; 4]]; [[5; 6]]]
     = Some (TrainPass.float_of_nat 5).
Proof.
  split.
  - destruct (validate_row_alignment nat 0 unit (list (list nat))
                (fun _ b => mkTensor 2 b)
                (fun s => TrainPass.float_of_nat (List.length s)) 3 2 tt
                [[[1; 2]; [3; 4]]; [[5; 6]]]) as [_ H].
    + repeat constructor.
    + cbn. lia.
    + apply H. reflexivity.
  - destruct (validate_row_alignment nat 0 unit (list (list nat))
                (fun _ b => mkTensor 2 b)
                (fun s => TrainPass.float_of_nat (List.length s)) 5 2 tt
                [[[1; 2]; [3; 4]]; [[5; 6]]]) as [H _].
    + repeat constructor.
    + cbn. lia.
    + exact H.
Defined.

Lemma validate_overflow_witness :
  validate 0 (fun (_ : unit) (b : list (list nat)) => mkTensor 2 b)
           (fun s => TrainPass.float_of_nat (List.length s)) 3 2 tt
           [[[1; 2]; [3; 4]]; [[5; 6]; [7; 8]]]
  = None.
Proof.
  apply (validate_overflow nat 0 unit (list (list nat))).
  - repeat constructor.
  - repeat constructor.
  - cbn. lia.
Defined.

Lemma validate_matrix_rows_witness :
  exists scores,
    fill 0 2 (zeros 0 3 2) 0
         (map ((fun (_ : unit) (b : list (list nat)) => mkTensor 1 b) tt)
              [[[1]; [2]]; [[3]]])
    = Some scores
    /\ TrainPass.float_of_nat 12
       = (fun s => TrainPass.float_of_nat (list_sum (List.concat s))) scores
    /\ List.length scores = 3.
Proof.
  apply (validate_matrix_rows nat 0 unit (list (list nat))
           (fun _ b => mkTensor 1 b)
           (fun s => TrainPass.float_of_nat (list_sum (List.concat s)))
           3 2 tt [[[1]; [2]]; [[3]]]).
  reflexivity.
Defined.

End ValidateFacts.

(** * The start of [main] *)

Module SetupFacts.

Import Setup.

Lemma seeding_events (seed : Z) :
  forallb is_seeding (fst (seeding seed)) = true.
Proof.
  unfold seeding.
  destruct (seed =? 0)%Z; [reflexivity|].
  destruct ((0 <=? seed) && (seed <? 2 ^ 32))%Z; reflexivity.
Qed.

Lemma ensure_folder_events (folder : string) (exists_ mkdir_ok : bool) :
  existsb is_seeding (fst (ensure_folder folder exists_ mkdir_ok)) = false.
Proof.
  unfold ensure_folder. destruct exists_, mkdir_ok; reflexivity.
Qed.

(** X17: the generators are seeded exactly when the seed is a nonzero value
    that [np.random.seed] takes; with [--seed 0] the test [if args.seed:]
    is false and nothing is seeded, whatever the other arguments are. *)
Theorem seeded_iff (seed : Z) (a : Args.t) (exists_ mkdir_ok : bool) :
  existsb is_seeding (fst (prologue seed a exists_ mkdir_ok)) = true
  <-> (seed <> 0 /\ 0 <= seed < 2 ^ 32)%Z.
Proof.
  unfold prologue, seeding.
  destruct (Z.eqb_spec seed 0) as [E0 | E0].
  - cbn [negb]. pose proof (ensure_folder_events (Args.save_folder a) exists_ mkdir_ok) as Hf.
    destruct (ensure_folder (Args.save_folder a) exists_ mkdir_ok) as [ev2 ok2].
    cbn [fst] in Hf.
    assert (Hev : existsb is_seeding ([] ++ ev2) = false) by exact Hf.
    split.
    + intros H. destruct (negb ok2); [|destruct (String.eqb _ _)];
        cbn [fst] in H; congruence.
    + intros [H _]. contradiction.
  - destruct (Z.leb_spec 0 seed) as [Hlo | Hlo];
      destruct (Z.ltb_spec seed (2 ^ 32)) as [Hhi | Hhi]; cbn [andb negb].
    + destruct (ensure_folder (Args.save_folder a) exists_ mkdir_ok) as [ev2 ok2].
      split; [intros _; split; [exact E0 | split; assumption]|].
      intros _. destruct (negb ok2); [|destruct (String.eqb _ _)]; reflexivity.
    + split; [discriminate | intros [_ [_ H]]; lia].
    + split; [discriminate | intros [_ [H _]]; lia].
    + split; [discriminate | intros [_ [H _]]; lia].
Qed.

(** X18: the dataset is looked at last.  With a dataset other than
    ['cufed'] (argparse also lets ['pec'] through) the program leaves by
    [sys.exit("Unknown dataset!")], but only after the seeding calls and
    after the save folder was created when it was missing. *)
Theorem unknown_dataset_exits_late (seed : Z) (a : Args.t)
  (exists_ mkdir_ok : bool) :
  Args.dataset a <> "cufed"%string ->
  (0 <= seed < 2 ^ 32)%Z ->
  exists_ = true \/ mkdir_ok = true ->
  prologue seed a exists_ mkdir_ok
  = ((if (seed =? 0)%Z then []
      else [SeedNumpy seed; SeedTorch seed; SeedCuda seed])
     ++ (if exists_ then [] else [Mkdir (Args.save_folder a)]),
     SysExit "Unknown dataset!").
Proof.
  intros Hd [Hlo Hhi] Hf. unfold prologue, seeding, ensure_folder.
  apply String.eqb_neq in Hd. rewrite Hd.
  apply Z.leb_le in Hlo. apply Z.ltb_lt in Hhi. rewrite Hlo, Hhi.
  destruct (seed =? 0)%Z; cbn [andb negb];
    destruct exists_; cbn [negb]; try reflexivity;
    destruct Hf as [Hf | Hf]; try discriminate; subst mkdir_ok; reflexivity.
Qed.

Lemma unknown_dataset_exits_late_witness :
  prologue 2024
           (Args.mk 200 None "weights" "pec" 30 0.5%float 95%float false)
           false true
  = ([SeedNumpy 2024; SeedTorch 2024; SeedCuda 2024; Mkdir "weights"],
     SysExit "Unknown dataset!").
Proof.
  apply (unknown_dataset_exits_late 2024
           (Args.mk 200 None "weights" "pec" 30 0.5%float 95%float false)
           false true).
  - discriminate.
  - lia.
  - right. reflexivity.
Defined.

End SetupFacts.

(** * The whole of [main] *)

Module ProgramFacts.

Import Main Program.

Local Open Scope Z_scope.

Section Collaborators.

Variables Model Opt Sched : Type.
Variable train : bool -> Trainer Model Opt Sched
                 -> option (Trainer Model Opt Sched * float).
Variable validate : Model -> option float.
Variable save : Z -> string -> save_result.
Variable args : Args.t.

Local Abbreviation State := (Main.State Model Opt Sched).
Local Abbreviation Disk := (Files.Disk (Checkpoint Model Opt Sched)).
Local Abbreviation iteration := (Program.iteration train validate save args).
Local Abbreviation loop := (Program.loop train validate save args).
Local Abbreviation main := (Program.main train validate save args).
Local Abbreviation train' := (Program.total_train train).
Local Abbreviation validate' := (Program.total_validate validate).

Local Ltac unfold_iteration :=
  unfold Program.iteration, Program.bind, Program.call_train,
    Program.call_validate, Program.torch_save, Program.lift, Program.ret,
    Program.raise, Main.call_early_stop, Main.model_config, Main.torch_save,
    Main.print, Main.emit, Main.set_training, Program.bind, Program.lift.

(** What one iteration adds, however it ends: events after the trace, a stop
    message only when it ends in [break], and writes to the two checkpoint
    paths only. *)
Lemma iteration_effect (epoch : Z) (st : State) (r : option bool) (st' : State) :
  iteration epoch st = (r, st') ->
  (exists evs,
      trace st' = trace st ++ evs
      /\ (r <> Some true -> filter is_stop_message evs = []))
  /\ (forall p, p <> Args.last_path args -> p <> Args.best_path args ->
                disk st' p = disk st p).
Proof.
  unfold_iteration.
  destruct (train (training st) (trainer st)) as [[tr train_loss]|];
    cbn [fst snd trainer training early_stopper disk trace model].
  2:{ intros H. injection H as <- <-. split; [|reflexivity].
      exists []. split; [symmetry; apply app_nil_r | reflexivity]. }
  destruct (validate (model tr)) as [val_map|];
    cbn [fst snd trainer training early_stopper disk trace model].
  2:{ intros H. injection H as <- <-. cbn [trace disk]. split; [|reflexivity].
      eexists. split; [rewrite <- app_assoc; reflexivity | reflexivity]. }
  destruct (EarlyStopper.early_stop (early_stopper st) val_map)
    as [[stop sv] es'].
  cbn [fst snd trainer training early_stopper disk trace model opt sched].
  intros H.
  destruct (save (epoch + 1) (Args.last_path args)),
    sv, (save (epoch + 1) (Args.best_path args)), stop, (Args.verbose args);
    cbn [fst snd trainer training early_stopper disk trace model opt sched] in H;
    injection H as <- <-; cbn [trace disk];
    (split;
     [ eexists; split;
       [ repeat rewrite <- app_assoc; reflexivity
       | intros Hr; first [reflexivity | exfalso; apply Hr; reflexivity] ]
     | intros p Hl Hb; apply String.eqb_neq in Hl, Hb;
       unfold Files.torch_save, Files.torch_save_interrupted,
         Files.close_complete, Files.open_wb, Files.write;
       rewrite ?Hl, ?Hb; reflexivity ]).
Qed.

Lemma loop_effect (fuel : nat) :
  forall (epoch : Z) (st : State) (r : option unit) (st' : State),
    loop fuel epoch st = (r, st') ->
    (filter is_stop_message (trace st) = [] -> r = None ->
     filter is_stop_message (trace st') = [])
    /\ (forall p, p <> Args.last_path args -> p <> Args.best_path args ->
                  disk st' p = disk st p).
Proof.
  induction fuel as [| fuel IH]; intros epoch st r st' H; cbn [Program.loop] in H.
  - injection H as <- <-. split; [discriminate | reflexivity].
  - destruct (iteration epoch st) as [[[|]|] st1] eqn:E;
      destruct (iteration_effect _ _ _ _ E) as ((evs & Ht & Hs) & Hd).
    + injection H as <- <-. split; [discriminate | exact Hd].
    + destruct (IH _ _ _ _ H) as [Hs' Hd']. split.
      * intros H0 Hr. apply Hs'; [|exact Hr].
        rewrite Ht, filter_app, H0, Hs by discriminate. reflexivity.
      * intros p Hl Hb. rewrite Hd', Hd by assumption. reflexivity.
    + injection H as <- <-. split; [|exact Hd].
      intros H0 _. rewrite Ht, filter_app, H0, Hs by discriminate. reflexivity.
Qed.

(** An iteration in which nothing raises is the iteration of [Main]. *)
Lemma iteration_returned (epoch : Z) (st : State) (b : bool) (st' : State) :
  iteration epoch st = (Some b, st') ->
  Main.iteration train' validate' args epoch st = (b, st').
Proof.
  unfold_iteration.
  unfold Main.iteration, Main.bind, Main.call_train, Main.call_validate,
    Main.call_early_stop, Main.model_config, Main.torch_save, Main.print,
    Main.emit, Main.set_training, Main.ret, Main.bind, Program.total_train,
    Program.total_validate.
  destruct (train (training st) (trainer st)) as [[tr train_loss]|];
    cbn [fst snd trainer training early_stopper disk trace model];
    [|discriminate].
  destruct (validate (model tr)) as [val_map|];
    cbn [fst snd trainer training early_stopper disk trace model];
    [|discriminate].
  destruct (EarlyStopper.early_stop (early_stopper st) val_map)
    as [[stop sv] es'].
  cbn [fst snd trainer training early_stopper disk trace model opt sched].
  destruct (save (epoch + 1) (Args.last_path args)),
    sv, (save (epoch + 1) (Args.best_path args)), stop, (Args.verbose args);
    cbn [fst snd trainer training early_stopper disk trace model opt sched];
    intros H; try discriminate; injection H as <- <-; reflexivity.
Qed.

Lemma loop_returned (fuel : nat) :
  forall (epoch : Z) (st : State) (u : unit) (st' : State),
    loop fuel epoch st = (Some u, st') ->
    Main.loop train' validate' args fuel epoch st = st'.
Proof.
  induction fuel as [| fuel IH]; intros epoch st u st' H;
    cbn [Program.loop Main.loop] in *.
  - injection H as _ <-. reflexivity.
  - destruct (iteration epoch st) as [[[|]|] st1] eqn:E; [| |discriminate];
      rewrite (iteration_returned _ _ _ _ E).
    + injection H as _ <-. reflexivity.
    + exact (IH _ _ _ _ H).
Qed.

(** A run that returns is a run of [Main] with the same collaborators. *)
Lemma main_returned (seed : Z) (exists_ mkdir_ok : bool)
  (build : option (Trainer Model Opt Sched)) (d : Disk) (st : State) :
  snd (main seed exists_ mkdir_ok build d) = Returned st ->
  exists fresh,
    build = Some fresh
    /\ snd (Setup.prologue seed args exists_ mkdir_ok) = Setup.Continue
    /\ Main.main train' validate' args fresh d = Some st.
Proof.
  unfold Program.main.
  destruct (Setup.prologue seed args exists_ mkdir_ok) as [ev [| msg |]];
    cbn [snd]; try discriminate.
  destruct build as [fresh|]; [|discriminate].
  destruct (startup args fresh d) as [[start st0]|] eqn:Hs; [|discriminate].
  destruct (loop (range_len start (Args.num_epochs args)) start st0)
    as [[u|] st1] eqn:E; [|discriminate].
  cbn [snd]. intros H. injection H as <-.
  exists fresh. split; [reflexivity|]. split; [reflexivity|].
  unfold Main.main. rewrite Hs, (loop_returned _ _ _ _ _ E). reflexivity.
Qed.

(** X6: whatever way a run of [main] ends (it returns, it leaves by
    [sys.exit], or the start of [main], the construction of the objects,
    [torch.load], a training pass, a validation pass or a [torch.save]
    raises), the only changes [main] itself makes to the file system are
    [os.mkdir(args.save_folder)], made only when the folder was missing, and
    writes to the "last" and "best" checkpoint paths: every other checkpoint
    path holds at the end what it held at the start. *)
Theorem run_touches_only_checkpoints (seed : Z) (exists_ mkdir_ok : bool)
  (build : option (Trainer Model Opt Sched)) (d : Disk) :
  let r := main seed exists_ mkdir_ok build d in
  (forall p, p <> Args.last_path args -> p <> Args.best_path args ->
             disk_after d (snd r) p = d p)
  /\ (forall e, In e (fst r) -> Setup.is_seeding e = false ->
                e = Setup.Mkdir (Args.save_folder args) /\ exists_ = false).
Proof.
  cbn zeta. split.
  - intros p Hl Hb. unfold Program.main.
    destruct (Setup.prologue seed args exists_ mkdir_ok) as [ev [| msg |]];
      cbn [snd disk_after]; try reflexivity.
    destruct build as [fresh|]; [|reflexivity].
    destruct (startup args fresh d) as [[start st0]|] eqn:Hs; [|reflexivity].
    apply LoopFacts.startup_state in Hs. destruct Hs as (_ & Hd & _).
    destruct (loop (range_len start (Args.num_epochs args)) start st0)
      as [[u|] st1] eqn:E;
      destruct (loop_effect _ _ _ _ _ E) as [_ Hk];
      cbn [snd disk_after]; rewrite Hk, Hd by assumption; reflexivity.
  - intros e Hin Hse.
    assert (Hev : fst (main seed exists_ mkdir_ok build d)
                  = fst (Setup.prologue seed args exists_ mkdir_ok)).
    { unfold Program.main.
      destruct (Setup.prologue seed args exists_ mkdir_ok) as [ev [| msg |]];
        try reflexivity.
      destruct build as [fresh|]; [|reflexivity].
      destruct (startup args fresh d) as [[start st0]|]; [|reflexivity].
      destruct (loop _ _ _) as [[u|] st1]; reflexivity. }
    rewrite Hev in Hin. clear Hev. revert Hin.
    unfold Setup.prologue, Setup.seeding, Setup.ensure_folder.
    destruct (seed =? 0); [|destruct ((0 <=? seed) && (seed <? 2 ^ 32))%bool];
      cbn [negb fst app]; destruct exists_, mkdir_ok; cbn [negb fst app];
      try destruct (String.eqb (Args.dataset args) "cufed");
      cbn [fst app In]; intros Hin;
      repeat (destruct Hin as [Hin | Hin]; [subst e; try discriminate|]);
      try contradiction; split; reflexivity.
Qed.

(** X7: a run in which [main] returns (no exception, no [sys.exit]) and
    that printed no stop message used its whole budget: it made
    [len(range(start_epoch, num_epochs))] training passes and, when that is
    at least one, the "last" file it leaves holds a checkpoint whose epoch
    field is [num_epochs].  A run ended by an exception prints no stop
    message either, so the missing message alone does not show that the
    budget was used. *)
Theorem returned_quiet_run_used_budget (seed : Z) (exists_ mkdir_ok : bool)
  (build : option (Trainer Model Opt Sched)) (d : Disk) :
  let r := snd (main seed exists_ mkdir_ok build d) in
  (forall st,
      r = Returned st ->
      filter is_stop_message (trace st) = [] ->
      exists fresh start st0,
        build = Some fresh
        /\ startup args fresh d = Some (start, st0)
        /\ List.length (train_modes (trace st))
           = range_len start (Args.num_epochs args)
        /\ (start < Args.num_epochs args ->
            exists ck,
              Files.torch_load (disk st) (Args.last_path args) = Some ck
              /\ Main.epoch ck = Args.num_epochs args))
  /\ (forall d' tr, r = Raised d' tr -> filter is_stop_message tr = []).
Proof.
  cbn zeta. split.
  - intros st Hr Hq.
    destruct (main_returned _ _ _ _ _ _ Hr) as (fresh & -> & _ & Hm).
    destruct (startup args fresh d) as [[start st0]|] eqn:Hs.
    + exists fresh, start, st0. split; [reflexivity|]. split; [exact Hs|].
      exact (LoopMore.full_budget_run _ _ _ train' validate' args fresh d
               start st0 st Hs Hm Hq).
    + unfold Main.main in Hm. rewrite Hs in Hm. discriminate.
  - intros d' tr. unfold Program.main.
    destruct (Setup.prologue seed args exists_ mkdir_ok) as [ev [| msg |]];
      cbn [snd]; try discriminate;
      [| intros H; injection H as <- <-; reflexivity].
    destruct build as [fresh|]; [|intros H; injection H as <- <-; reflexivity].
    destruct (startup args fresh d) as [[start st0]|] eqn:Hs;
      [|intros H; injection H as <- <-; reflexivity].
    apply LoopFacts.startup_state in Hs.
    destruct Hs as (_ & _ & _ & _ & _ & _ & _ & Hq & _).
    destruct (loop (range_len start (Args.num_epochs args)) start st0)
      as [[u|] st1] eqn:E; cbn [snd]; [discriminate|].
    intros H. injection H as <- <-.
    destruct (loop_effect _ _ _ _ _ E) as [Hk _]. apply Hk; [exact Hq | reflexivity].
Qed.

End Collaborators.

Lemma run_touches_only_checkpoints_witness :
  disk_after Demo.no_files (snd (Program.demo_broken (Demo.demo_args 3 30 None)))
             "ckpt.pt"%string
  = None
  /\ (Setup.Mkdir "weights" = Setup.Mkdir (Args.save_folder (Demo.demo_args 3 30 None))
      /\ false = false).
Proof.
  destruct (run_touches_only_checkpoints nat unit unit
              (fun b tr => Some (Demo.demo_train b tr))
              (fun m => if Nat.eqb m 2 then None else Some (Demo.demo_validate m))
              (fun _ _ => Saved) (Demo.demo_args 3 30 None)
              2024 false true (Some Demo.demo_fresh) Demo.no_files) as [Hd He].
  split.
  - apply (Hd "ckpt.pt"%string); intros H; vm_compute in H; discriminate H.
  - apply (He (Setup.Mkdir "weights")); [|reflexivity].
    vm_compute. right. right. right. left. reflexivity.
Defined.

Lemma returned_quiet_run_used_budget_witness :
  (exists st,
      snd (Program.demo_main (Demo.demo_args 2 30 None)) = Returned st
      /\ List.length (train_modes (trace st)) = 2%nat)
  /\ (exists d' tr,
        snd (Program.demo_broken (Demo.demo_args 3 30 None)) = Raised d' tr
        /\ List.length (train_modes tr) = 2%nat
        /\ filter is_stop_message tr = []).
Proof.
  split.
  - assert (E : exists st,
               snd (Program.main (fun b tr => Some (Demo.demo_train b tr))
                      (fun m => Some (Demo.demo_validate m))
                      (fun _ _ => Saved) (Demo.demo_args 2 30 None)
                      2024 false true (Some Demo.demo_fresh) Demo.no_files)
               = Returned st
               /\ filter is_stop_message (trace st) = [])
      by (vm_compute; eexists; split; reflexivity).
    destruct E as (st & E & Hq). exists st. split; [exact E|].
    destruct (proj1 (returned_quiet_run_used_budget nat unit unit
                (fun b tr => Some (Demo.demo_train b tr))
                (fun m => Some (Demo.demo_validate m))
                (fun _ _ => Saved) (Demo.demo_args 2 30 None)
                2024 false true (Some Demo.demo_fresh) Demo.no_files) st E Hq)
      as (fresh & start & st0 & _ & Hs & Hl & _).
    injection Hs as <- _. exact Hl.
  - assert (E : exists d' tr,
               snd (Program.main (fun b tr => Some (Demo.demo_train b tr))
                      (fun m => if Nat.eqb m 2 then None
                                else Some (Demo.demo_validate m))
                      (fun _ _ => Saved) (Demo.demo_args 3 30 None)
                      2024 false true (Some Demo.demo_fresh) Demo.no_files)
               = Raised d' tr
               /\ List.length (train_modes tr) = 2%nat)
      by (vm_compute; eexists; eexists; split; reflexivity).
    destruct E as (d' & tr & E & Hl). exists d', tr.
    split; [exact E|]. split; [exact Hl|].
    exact (proj2 (returned_quiet_run_used_budget nat unit unit
                (fun b tr => Some (Demo.demo_train b tr))
                (fun m => if Nat.eqb m 2 then None else Some (Demo.demo_validate m))
                (fun _ _ => Saved) (Demo.demo_args 3 30 None)
                2024 false true (Some Demo.demo_fresh) Demo.no_files) d' tr E).
Defined.

End ProgramFacts.
